(** * kitex, pkg/remote/trans/nphttp2/server_handler.go

    A shallow embedding of the server transport handler of the netpoll
    HTTP/2 (gRPC) transport: the per-stream task started by [OnRead], the
    tracer bracket ([startTracer], [finishTracer]) and [OnActive].

    The task of a stream talks to its collaborators (transport, metadata
    handlers, tracer controller, logger, call statistics) only through
    calls; the embedding records every such call, in order, in a trace
    (together with the entries into [finishTracer]) and threads the call's
    [RPCInfo] as explicit state.  Control flow of the Go code (early
    [return], [panic], [defer] with [recover]) is kept by a small state
    monad whose results say how a statement ended.

    What the embedding takes from outside this file: the collaborators
    return when called, and of them only the endpoint may panic (with a
    value or with nil); a panic of a call made before the task installs
    its deferred recovery would leave the task, and is outside the
    embedding.  The invocation record of the call state is settable and
    its config mutable (the task asserts both without a check), while its
    statistics may lack a mutable view (which [finishTracer] checks).  The
    config is not part of the embedded call state: its one change, the
    transport protocol set at the start of the task, is kept as a call of
    the trace.  [%q], [debug.Stack], the status of an error and
    [grpcTransport.Infinity] are declared elsewhere. *)

From Stdlib Require Import String Ascii List ZArith Lia Bool.
Import ListNotations.

Open Scope string_scope.
Open Scope Z_scope.

(** ** Go strings: bytes, [len], slices, [strings.LastIndex] *)

Definition len (s : string) : Z := Z.of_nat (String.length s).

(** [s[lo:hi]]; Go panics unless [0 <= lo <= hi <= len(s)]. *)
Definition slice (s : string) (lo hi : Z) : option string :=
  if (0 <=? lo) && (lo <=? hi) && (hi <=? len s)
  then Some (substring (Z.to_nat lo) (Z.to_nat (hi - lo)) s)
  else None.

(** Scan of [s] from index [i] on, remembering in [found] the last index
    at which [substr] starts. *)
Fixpoint lastIndexFrom (i : Z) (s substr : string) (found : Z) : Z :=
  let found' := if prefix substr s then i else found in
  match s with
  | EmptyString => found'
  | String _ s' => lastIndexFrom (i + 1) s' substr found'
  end.

(** [strings.LastIndex(s, substr)]: the index of the last instance of
    [substr] in [s], or -1 when there is none. *)
Definition LastIndex (s substr : string) : Z := lastIndexFrom 0 s substr (-1).

(** [if sm != "" && sm[0] == '/' { sm = sm[1:] }] *)
Definition trimLeadingSlash (sm : string) : string :=
  match sm with
  | String "/"%char rest => rest
  | _ => sm
  end.

(** Whether the byte [c] occurs in [s]. *)
Fixpoint occurs (c : ascii) (s : string) : bool :=
  match s with
  | EmptyString => false
  | String c' s' => Ascii.eqb c' c || occurs c s'
  end.

(** Whether [s] starts with the byte [c]. *)
Definition startsWith (c : ascii) (s : string) : bool :=
  match s with
  | EmptyString => false
  | String c' _ => Ascii.eqb c' c
  end.

Definition nl : string := String (ascii_of_nat 10) EmptyString.
Definition dquote : ascii := ascii_of_nat 34.
Definition backslash : ascii := ascii_of_nat 92.

(** [strconv.Quote] on strings of printable ASCII bytes: the bytes between
    double quotes, a double quote and a backslash escaped by a backslash.
    (On other bytes Go writes escape sequences that depend on the Unicode
    tables; the handler below takes the quoting function of [%q] as a
    parameter, and this one instantiates it in the examples.) *)
Fixpoint quoteBody (s : string) : string :=
  match s with
  | EmptyString => String dquote EmptyString
  | String c s' =>
      if Ascii.eqb c dquote || Ascii.eqb c backslash
      then String backslash (String c (quoteBody s'))
      else String c (quoteBody s')
  end.

Definition quoteASCII (s : string) : string := String dquote (quoteBody s).

(** ** Status codes and statuses (packages codes and status) *)

Module codes.
Inductive Code : Set :=
| OK | Canceled | Unknown | InvalidArgument | DeadlineExceeded | NotFound
| AlreadyExists | PermissionDenied | ResourceExhausted | FailedPrecondition
| Aborted | OutOfRange | Unimplemented | Internal | Unavailable | DataLoss
| Unauthenticated.
End codes.

Module status.
Record Status : Set := New { Code : codes.Code; Message : string }.
End status.

(** ** Values the handler passes around *)

(** A [context.Context]: the values it carries. *)
Definition Context : Set := list (string * string).

(** A Go [error]: a tag for its dynamic identity and its [Error()] text. *)
Record error : Set := mkError { errTag : nat; Error : string }.

(** A value handed to [panic] that is not nil: a run-time error of Go or
    any other value.  The argument of [panic] and the result of [recover]
    are of type [interface{}], nil or such a value: [option PanicValue],
    with [None] for nil. *)
Inductive PanicValue : Set :=
| RuntimeError (desc : string)
| PanicAny (v : string).

(** transport.Protocol, as far as the handler names it. *)
Inductive Protocol : Set := GRPC.

(** The invocation record behind [rpcinfo.InvocationSetter]. *)
Record Invocation : Set := mkInvocation {
  PackageName : string;
  ServiceName : string;
  MethodName : string
}.

(** The mutable statistics of a call (rpcinfo's rpcStats). *)
Record rpcStats : Set := mkStats { panicErr : option PanicValue }.

(** What [ri.Stats()] returns: rpcinfo's own statistics object, or another
    implementation of the read-only interface. *)
Inductive RPCStats : Set :=
| MutableStats (st : rpcStats)
| ReadOnlyStats.

(** [rpcinfo.AsMutableRPCStats]: the mutable view, nil when there is none. *)
Definition AsMutableRPCStats (r : RPCStats) : option rpcStats :=
  match r with
  | MutableStats st => Some st
  | ReadOnlyStats => None
  end.

(** The call state, as far as the task reads and writes it after its
    first statement: the invocation record and the statistics. *)
Record RPCInfo : Set := mkRPCInfo {
  Invocation_ : Invocation;
  Stats : RPCStats
}.

(** A stream of the transport ([grpcTransport.Stream]). *)
Record Stream : Set := mkStream {
  streamID : nat;
  Stream_Context : Context;
  Method : string
}.

(** The server transport of the connection, as far as the task reads it. *)
Record ServerTransport : Set := mkTransport { RemoteAddr : string }.

(** A [remote.StreamingMetaHandler]. *)
Record StreamingMetaHandler : Set := mkMetaHandler {
  OnReadStream : Context -> Context * option error
}.

(** How a call of the business endpoint ends. *)
Inductive EndpointResult : Set :=
| Returns (err : option error)
| Panics (v : option PanicValue).

(** An [endpoint.Endpoint], called with the context and the stream. *)
Definition Endpoint : Set := Context -> Stream -> EndpointResult.

(** [stats.Controller]: what its start hooks make of the context. *)
Record TracerCtl_ : Set := mkTracerCtl { DoStart : Context -> RPCInfo -> Context }.

Record ServerOption : Set := mkServerOption {
  InitRPCInfoFunc : Context -> string -> RPCInfo * Context;
  StreamingMetaHandlers : list StreamingMetaHandler;
  TracerCtl : TracerCtl_
}.

Record svrTransHandler : Set := mksvrTransHandler {
  opt : ServerOption;
  inkHdlFunc : option Endpoint
}.

Definition newSvrTransHandler (o : ServerOption) : svrTransHandler * option error :=
  ({| opt := o; inkHdlFunc := None |}, None).

Definition SetInvokeHandleFunc (t : svrTransHandler) (f : Endpoint) : svrTransHandler :=
  {| opt := opt t; inkHdlFunc := Some f |}.

(** ** Calls on collaborators *)

Inductive LogArg : Set :=
| ArgAddr (a : string)
| ArgPanic (p : PanicValue)
| ArgStack (s : string).

Inductive Event : Set :=
| SetTransportProtocol (p : Protocol)
| CallOnReadStream (h : StreamingMetaHandler) (ctx : Context)
| WriteStatus (s : Stream) (st : status.Status)
| CallDoStart (ctx : Context)
| SetMethodName (m : string)
| SetPackageName (p : string)
| SetServiceName (sv : string)
| CallEndpoint (ctx : Context) (s : Stream)
| Errorf (format : string) (args : list LogArg)
| SetPanicked (p : PanicValue)
| Enter_finishTracer (ctx : Context) (err : option error)
    (panicErr : option PanicValue)
| CallDoFinish (ctx : Context) (ri : RPCInfo) (err : option error)
| StatsReset.

Record World : Set := mkWorld { ri : RPCInfo; trace : list Event }.

(** ** Connections (net.Conn, netpoll.Connection) *)

Record Connection : Set := mkConnection {
  Connection_RemoteAddr : string;
  readTimeout : Z
}.

(** A [net.Conn] value: a netpoll connection or a connection of another
    dynamic type, on which the assertion [conn.(netpoll.Connection)]
    panics. *)
Inductive Conn : Set :=
| NetpollConn (c : Connection)
| OtherConn (addr : string).

Definition Conn_RemoteAddr (conn : Conn) : string :=
  match conn with
  | NetpollConn c => Connection_RemoteAddr c
  | OtherConn a => a
  end.

Definition SetReadTimeout (c : Connection) (d : Z) : Connection :=
  {| Connection_RemoteAddr := Connection_RemoteAddr c; readTimeout := d |}.

(** Modelled from the spec: the constant [grpcTransport.Infinity] is
    declared in package grpc, outside this file; section 4.6 calls it an
    unbounded read timeout.  A [time.Duration] is an int64 count of
    nanoseconds, and the unbounded one is the largest. *)
Definition Infinity : Z := 9223372036854775807.

(** ** Statements: a state monad with early return and panic *)

Inductive Flow (A : Type) : Type :=
| Next (a : A)
| Return
| Panic (v : option PanicValue).

Arguments Next {A} a.
Arguments Return {A}.
Arguments Panic {A} v.

Definition Task (A : Type) : Type := World -> Flow A * World.

Definition ret {A : Type} (a : A) : Task A := fun w => (Next a, w).

Definition bind {A B : Type} (m : Task A) (k : A -> Task B) : Task B :=
  fun w =>
    match m w with
    | (Next a, w') => k a w'
    | (Return, w') => (Return, w')
    | (Panic v, w') => (Panic v, w')
    end.

Declare Scope task_scope.
Delimit Scope task_scope with task.
Notation "x <- m ;; k" := (bind m (fun x => k))
  (at level 61, m at next level, right associativity) : task_scope.
Notation "m ;; k" := (bind m (fun _ => k))
  (at level 61, right associativity) : task_scope.
Open Scope task_scope.

(** [return] out of the current function. *)
Definition return_ {A : Type} : Task A := fun w => (Return, w).

(** [panic(v)]; [v] may be nil. *)
Definition panic {A : Type} (v : option PanicValue) : Task A :=
  fun w => (Panic v, w).

(** A function body: an early [return] ends the function, not its caller. *)
Definition func (body : Task unit) : Task unit :=
  fun w =>
    match body w with
    | (Return, w') => (Next tt, w')
    | r => r
    end.

(** [defer func() { panicErr := recover(); ... }()] followed by the rest
    of the function: the deferred function runs when the rest has ended,
    whichever way; [recover] gives it the value of the panic under way and
    stops that panic.  That value is nil when there is no panic, and also
    when the panic was raised with nil. *)
Definition defer_recover (deferred : option PanicValue -> Task unit)
    (rest : Task unit) : Task unit :=
  fun w =>
    match rest w with
    | (Panic v, w') => deferred v w'
    | (_, w') => deferred None w'
    end.

(** A call on a collaborator, recorded in the trace. *)
Definition call (e : Event) : Task unit :=
  fun w => (Next tt, {| ri := ri w; trace := trace w ++ [e] |}).

Definition getRI : Task RPCInfo := fun w => (Next (ri w), w).

Definition withInvocation (r : RPCInfo) (i : Invocation) : RPCInfo :=
  {| Invocation_ := i; Stats := Stats r |}.

Definition withStats (r : RPCInfo) (st : rpcStats) : RPCInfo :=
  {| Invocation_ := Invocation_ r; Stats := MutableStats st |}.

Definition setInvocation (i : Invocation) : Task unit :=
  fun w => (Next tt, {| ri := withInvocation (ri w) i; trace := trace w |}).

Definition setStats (st : rpcStats) : Task unit :=
  fun w => (Next tt, {| ri := withStats (ri w) st; trace := trace w |}).

(** [s[lo:hi]] as a statement. *)
Definition sliceOrPanic (s : string) (lo hi : Z) : Task string :=
  match slice s lo hi with
  | Some r => ret r
  | None => panic (Some (RuntimeError "slice bounds out of range"))
  end.

(** The setters of [rpcinfo.InvocationSetter]. *)
Definition ink_SetMethodName (m : string) : Task unit :=
  call (SetMethodName m) ;;
  r <- getRI ;;
  setInvocation {| PackageName := PackageName (Invocation_ r);
                   ServiceName := ServiceName (Invocation_ r);
                   MethodName := m |}.

Definition ink_SetPackageName (p : string) : Task unit :=
  call (SetPackageName p) ;;
  r <- getRI ;;
  setInvocation {| PackageName := p;
                   ServiceName := ServiceName (Invocation_ r);
                   MethodName := MethodName (Invocation_ r) |}.

Definition ink_SetServiceName (sv : string) : Task unit :=
  call (SetServiceName sv) ;;
  r <- getRI ;;
  setInvocation {| PackageName := PackageName (Invocation_ r);
                   ServiceName := sv;
                   MethodName := MethodName (Invocation_ r) |}.

(** The setters of [rpcinfo.MutableRPCStats]. *)
Definition rpcStats_SetPanicked (p : PanicValue) : Task unit :=
  call (SetPanicked p) ;;
  setStats {| panicErr := Some p |}.

Definition rpcStats_Reset : Task unit :=
  call StatsReset ;;
  setStats {| panicErr := None |}.

Definition tr_WriteStatus (s : Stream) (st : status.Status) : Task unit :=
  call (WriteStatus s st).

Definition Logger_Errorf (format : string) (args : list LogArg) : Task unit :=
  call (Errorf format args).

Definition TracerCtl_DoFinish (ctx : Context) (err : option error) : Task unit :=
  r <- getRI ;;
  call (CallDoFinish ctx r err).

(** ** The handler *)

Section Handler.

(** [%q] of package fmt ([strconv.Quote]). *)
Variable strconv_Quote : string -> string.
(** [string(debug.Stack())] at the point of recovery. *)
Variable debug_Stack : string.
(** The table of status codes by error that the translation consults. *)
Variable errCode : error -> codes.Code.

(** Modelled from the spec: [convertFromKitexToGrpc] is declared in
    another file of package nphttp2.  Section 4.2: errors are translated
    through a configurable error-to-status mapping that must preserve
    the original message text. *)
Definition convertFromKitexToGrpc (err : error) : status.Status :=
  status.New (errCode err) (Error err).

Definition startTracer (t : svrTransHandler) (ctx : Context) : Task Context :=
  r <- getRI ;;
  call (CallDoStart ctx) ;;
  let c := DoStart (TracerCtl (opt t)) ctx r in
  ret c.

(** The trace also keeps each entry into [finishTracer], with its
    arguments: a call that finds no mutable statistics calls no
    collaborator, and would leave no other mark. *)
Definition finishTracer (t : svrTransHandler) (ctx : Context)
    (err : option error) (panicErr : option PanicValue) : Task unit :=
  func (
    call (Enter_finishTracer ctx err panicErr) ;;
    r <- getRI ;;
    let rpcStats := AsMutableRPCStats (Stats r) in
    match rpcStats with
    | None => return_
    | Some _ =>
        match panicErr with
        | Some p => rpcStats_SetPanicked p
        | None => ret tt
        end ;;
        TracerCtl_DoFinish ctx err ;;
        rpcStats_Reset
    end).

(** The loop over [t.opt.StreamingMetaHandlers]; [ctx] and [err] are the
    variables of the task that the loop assigns. *)
Fixpoint forStreamingMetaHandlers (tr : ServerTransport) (s : Stream)
    (hs : list StreamingMetaHandler) (ctx : Context) (err : option error)
    : Task (Context * option error) :=
  match hs with
  | [] => ret (ctx, err)
  | shdlr :: hs' =>
      call (CallOnReadStream shdlr ctx) ;;
      let '(ctx, err) := OnReadStream shdlr ctx in
      match err with
      | Some e =>
          tr_WriteStatus s (convertFromKitexToGrpc e) ;;
          return_
      | None => forStreamingMetaHandlers tr s hs' ctx err
      end
  end.

(** The call [t.inkHdlFunc(ctx, &streaming.Args{Stream: st}, nil)]; a
    handler whose endpoint was never set calls a nil function. *)
Definition callInkHdlFunc (t : svrTransHandler) (ctx : Context) (s : Stream)
    : Task (option error) :=
  match inkHdlFunc t with
  | None =>
      panic (Some (RuntimeError "invalid memory address or nil pointer dereference"))
  | Some f =>
      call (CallEndpoint ctx s) ;;
      match f ctx s with
      | Returns err => ret err
      | Panics v => panic v
      end
  end.

(** The function that [OnRead] hands to [gofunc.GoFunc] for the stream
    [s]: one task per stream, on the [RPCInfo] that [InitRPCInfoFunc]
    makes for it.  The calls made before the deferred function is
    installed are taken to return: a panic there would leave the task
    unrecovered. *)
Definition OnRead_stream (t : svrTransHandler) (tr : ServerTransport)
    (conn : option Conn) (s : Stream) : Flow unit * World :=
  let '(ri0, ctx) := InitRPCInfoFunc (opt t) (Stream_Context s) (RemoteAddr tr) in
  func (
    call (SetTransportProtocol GRPC) ;;
    let err : option error := None in
    ce <- forStreamingMetaHandlers tr s (StreamingMetaHandlers (opt t)) ctx err ;;
    let '(ctx, err) := ce in
    ctx <- startTracer t ctx ;;
    defer_recover
      (fun panicErr =>
         match panicErr with
         | Some p =>
             match conn with
             | Some c =>
                 Logger_Errorf
                   ("KITEX: panic happened, close conn[%s], %v" ++ nl ++ "%s")
                   [ArgAddr (Conn_RemoteAddr c); ArgPanic p; ArgStack debug_Stack]
             | None =>
                 Logger_Errorf
                   ("KITEX: panic happened, %v" ++ nl ++ "%s")
                   [ArgPanic p; ArgStack debug_Stack]
             end
         | None => ret tt
         end ;;
         finishTracer t ctx err panicErr)
      (let sm := Method s in
       let sm := trimLeadingSlash sm in
       let pos := LastIndex sm "/" in
       if pos =? -1 then
         let errDesc := "malformed method name: " ++ strconv_Quote (Method s) in
         tr_WriteStatus s (status.New codes.ResourceExhausted errDesc) ;;
         return_
       else
         m <- sliceOrPanic sm (pos + 1) (len sm) ;;
         ink_SetMethodName m ;;
         q <- sliceOrPanic sm 0 pos ;;
         let idx := LastIndex q "." in
         if idx =? -1 then
           let errDesc :=
             "malformed package and service name: " ++ strconv_Quote (Method s) in
           tr_WriteStatus s (status.New codes.ResourceExhausted errDesc) ;;
           return_
         else
           p <- sliceOrPanic sm 0 idx ;;
           ink_SetPackageName p ;;
           sv <- sliceOrPanic sm (idx + 1) pos ;;
           ink_SetServiceName sv ;;
           r <- callInkHdlFunc t ctx s ;;
           match r with
           | Some err =>
               tr_WriteStatus s (convertFromKitexToGrpc err) ;;
               return_
           | None =>
               tr_WriteStatus s (status.New codes.OK "")
           end)
  ) {| ri := ri0; trace := [] |}.

Definition OnActive (t : svrTransHandler) (ctx : Context) (conn : Conn)
    : Flow (Context * option error) * Conn :=
  match conn with
  | NetpollConn c =>
      (Next (ctx, None), NetpollConn (SetReadTimeout c Infinity))
  | OtherConn _ =>
      (Panic (Some (RuntimeError
                      "interface conversion: net.Conn is not netpoll.Connection")),
       conn)
  end.

End Handler.

(** ** Sample collaborators *)

Definition sampleRPCInfo : RPCInfo :=
  {| Invocation_ := {| PackageName := ""; ServiceName := ""; MethodName := "" |};
     Stats := MutableStats {| panicErr := None |} |}.

Definition sampleInit (ctx : Context) (addr : string) : RPCInfo * Context :=
  (sampleRPCInfo, ("remote", addr) :: ctx).

Definition sampleTracerCtl : TracerCtl_ :=
  {| DoStart := fun ctx _ => ("trace", "started") :: ctx |}.

(** A metadata handler that adds an entry to the context. *)
Definition passHandler (k : string) : StreamingMetaHandler :=
  {| OnReadStream := fun ctx => ((k, "seen") :: ctx, None) |}.

(** A metadata handler that rejects every call. *)
Definition failHandler (e : error) : StreamingMetaHandler :=
  {| OnReadStream := fun ctx => (ctx, Some e) |}.

Definition errDenied : error := {| errTag := 7; Error := "access denied" |}.
Definition errBiz : error := {| errTag := 13; Error := "no such user" |}.

Definition sampleErrCode (e : error) : codes.Code :=
  if Nat.eqb (errTag e) 7 then codes.PermissionDenied else codes.Internal.

Definition sampleOption (hs : list StreamingMetaHandler) : ServerOption :=
  {| InitRPCInfoFunc := sampleInit;
     StreamingMetaHandlers := hs;
     TracerCtl := sampleTracerCtl |}.

Definition sampleHandler (hs : list StreamingMetaHandler) (f : Endpoint)
    : svrTransHandler :=
  SetInvokeHandleFunc (fst (newSvrTransHandler (sampleOption hs))) f.

Definition sampleTransport : ServerTransport := {| RemoteAddr := "10.0.0.1:8888" |}.

Definition sampleConn : Conn :=
  NetpollConn {| Connection_RemoteAddr := "10.0.0.1:8888"; readTimeout := 0 |}.

Definition sampleStream (m : string) : Stream :=
  {| streamID := 1; Stream_Context := []; Method := m |}.

Definition echoOK : Endpoint := fun _ _ => Returns None.
Definition echoFails : Endpoint := fun _ _ => Returns (Some errBiz).
Definition echoPanics : Endpoint := fun _ _ => Panics (Some (PanicAny "boom")).
Definition echoPanicsNil : Endpoint := fun _ _ => Panics None.

Definition sampleStack : string := "goroutine 1 [running]".

Definition sampleRun (hs : list StreamingMetaHandler) (f : Endpoint) (m : string)
    : Flow unit * World :=
  OnRead_stream quoteASCII sampleStack sampleErrCode
    (sampleHandler hs f) sampleTransport (Some sampleConn) (sampleStream m).

(** A call state whose statistics have no mutable view. *)
Definition readOnlyInit (ctx : Context) (addr : string) : RPCInfo * Context :=
  ({| Invocation_ := {| PackageName := ""; ServiceName := ""; MethodName := "" |};
      Stats := ReadOnlyStats |},
   ("remote", addr) :: ctx).

Definition readOnlyOption : ServerOption :=
  {| InitRPCInfoFunc := readOnlyInit;
     StreamingMetaHandlers := [];
     TracerCtl := sampleTracerCtl |}.

(** ** Reading a trace *)

Definition isWriteStatus (e : Event) : bool :=
  match e with WriteStatus _ _ => true | _ => false end.

Definition isCallEndpoint (e : Event) : bool :=
  match e with CallEndpoint _ _ => true | _ => false end.

Definition isCallOnReadStream (e : Event) : bool :=
  match e with CallOnReadStream _ _ => true | _ => false end.

Definition isCallDoStart (e : Event) : bool :=
  match e with CallDoStart _ => true | _ => false end.

Definition isFinishTracer (e : Event) : bool :=
  match e with Enter_finishTracer _ _ _ => true | _ => false end.

Definition isCallDoFinish (e : Event) : bool :=
  match e with CallDoFinish _ _ _ => true | _ => false end.

Definition isStatsReset (e : Event) : bool :=
  match e with StatsReset => true | _ => false end.

Definition isErrorf (e : Event) : bool :=
  match e with Errorf _ _ => true | _ => false end.

Definition isSetter (e : Event) : bool :=
  match e with
  | SetMethodName _ | SetPackageName _ | SetServiceName _ => true
  | _ => false
  end.

(** How many events of the trace satisfy [p]. *)
Definition count (p : Event -> bool) (l : list Event) : nat :=
  List.length (filter p l).

(** The world after the calls [l]. *)
Definition after (w : World) (l : list Event) : World :=
  {| ri := ri w; trace := trace w ++ l |}.

(** ** The metadata handshake, as a function of the chain *)

Inductive ChainResult : Set :=
| Passed (ctx : Context)
| Failed (n : nat) (ctx : Context) (e : error).

(** Running the chain front to back from [ctx]: every handler passes and
    the last context is returned, or handler number [n] (from 0) is the
    first to return an error. *)
Fixpoint runChain (hs : list StreamingMetaHandler) (ctx : Context) : ChainResult :=
  match hs with
  | [] => Passed ctx
  | h :: hs' =>
      match OnReadStream h ctx with
      | (ctx', Some e) => Failed 0 ctx' e
      | (ctx', None) =>
          match runChain hs' ctx' with
          | Passed c => Passed c
          | Failed n c e => Failed (S n) c e
          end
      end
  end.

(** The handler calls made on the way, each with the context it is given. *)
Fixpoint chainCalls (hs : list StreamingMetaHandler) (ctx : Context) : list Event :=
  match hs with
  | [] => []
  | h :: hs' =>
      CallOnReadStream h ctx ::
      match OnReadStream h ctx with
      | (_, Some _) => []
      | (ctx', None) => chainCalls hs' ctx'
      end
  end.

(** The calls of a task whose handshake passes, up to the start of the
    tracer: [ctx0] is the context of the call state, [ctx1] the one the
    chain [hs] ends with. *)
Definition openingCalls (hs : list StreamingMetaHandler) (ctx0 ctx1 : Context)
    : list Event :=
  SetTransportProtocol GRPC :: chainCalls hs ctx0 ++ [CallDoStart ctx1].

(** What the deferred function of a task logs when it has recovered the
    panic value [p]. *)
Definition panicLog (debug_Stack : string) (conn : option Conn) (p : PanicValue)
    : Event :=
  match conn with
  | Some c =>
      Errorf ("KITEX: panic happened, close conn[%s], %v" ++ nl ++ "%s")
        [ArgAddr (Conn_RemoteAddr c); ArgPanic p; ArgStack debug_Stack]
  | None =>
      Errorf ("KITEX: panic happened, %v" ++ nl ++ "%s")
        [ArgPanic p; ArgStack debug_Stack]
  end.

(** The handler of each handler call of a trace, in order. *)
Fixpoint handlersCalled (l : list Event) : list StreamingMetaHandler :=
  match l with
  | [] => []
  | CallOnReadStream h _ :: l' => h :: handlersCalled l'
  | _ :: l' => handlersCalled l'
  end.

(** ** Write and Read: the codec and the buffer of a connection *)

(** A [remote.Message], as far as the handler hands it on. *)
Definition Message : Set := string.

(** A [remote.Codec]: the error, if any, of encoding or decoding a
    message. *)
Record Codec : Set := mkCodec {
  Encode : Context -> Message -> option error;
  Decode : Context -> Message -> option error
}.

(** The calls that [Write] and [Read] make on the codec and the buffer. *)
Inductive BufferCall : Set :=
| newBuffer (conn : option Conn)
| CallEncode (ctx : Context) (msg : Message)
| CallDecode (ctx : Context) (msg : Message)
| CallFlush
| CallRelease (err : option error).

(** [defer f(args)] followed by the rest of the function: the arguments
    are evaluated when the [defer] statement runs, the call is made when
    the rest has ended. *)
Definition deferCall {A : Type} (c : BufferCall) (rest : list BufferCall * A)
    : list BufferCall * A :=
  ((fst rest ++ [c])%list, snd rest).

(** [Write]; [codec] is [t.codec], [Flush] what flushing the buffer of a
    connection returns.  The named result [err] is nil when the [defer]
    statement reads it. *)
Definition Write (codec : Codec) (Flush : option Conn -> option error)
    (ctx : Context) (conn : option Conn) (msg : Message)
    : list BufferCall * option error :=
  let err : option error := None in
  let buf := conn in
  let '(calls, err) :=
    deferCall (CallRelease err)
      match Encode codec ctx msg with
      | Some e => ([CallEncode ctx msg], Some e)
      | None => ([CallEncode ctx msg; CallFlush], Flush buf)
      end in
  (newBuffer conn :: calls, err).

(** [Read]. *)
Definition Read (codec : Codec) (ctx : Context) (conn : option Conn)
    (msg : Message) : list BufferCall * option error :=
  let err : option error := None in
  let '(calls, err) :=
    deferCall (CallRelease err)
      ([CallDecode ctx msg], Decode codec ctx msg) in
  (newBuffer conn :: calls, err).

Definition isCallRelease (c : BufferCall) : bool :=
  match c with CallRelease _ => true | _ => false end.

Definition isCallFlush (c : BufferCall) : bool :=
  match c with CallFlush => true | _ => false end.

Definition count_flush (calls : list BufferCall) : nat :=
  List.length (filter isCallFlush calls).

(** A task on a call state whose statistics have no mutable view. *)
Definition readOnlyRun (f : Endpoint) (m : string) : Flow unit * World :=
  OnRead_stream quoteASCII sampleStack sampleErrCode
    (SetInvokeHandleFunc (fst (newSvrTransHandler readOnlyOption)) f)
    sampleTransport (Some sampleConn) (sampleStream m).

Definition errEncode : error := {| errTag := 21; Error := "encode failed" |}.
Definition errFlush : error := {| errTag := 22; Error := "broken pipe" |}.

(** A codec that fails to encode the empty message and decodes all. *)
Definition sampleCodec : Codec :=
  {| Encode := fun _ msg => if String.eqb msg "" then Some errEncode else None;
     Decode := fun _ _ => None |}.

(** ** The paths of a task *)

(** A call that hands an error to the tracer: an entry into
    [finishTracer], or a call of the finish hooks, with an error that is
    not nil. *)
Definition handsError (e : Event) : bool :=
  match e with
  | Enter_finishTracer _ (Some _) _ | CallDoFinish _ _ (Some _) => true
  | _ => false
  end.

(** The method string [sm] (without its leading separator) resolves to
    package [p], service [sv] and method [m]: the last separator and the
    last dot before it are found, and the three names are the slices the
    task takes at them. *)
Definition Resolves (sm p sv m : string) : Prop :=
  exists q,
    LastIndex sm "/" <> -1
    /\ slice sm 0 (LastIndex sm "/") = Some q
    /\ LastIndex q "." <> -1
    /\ slice sm 0 (LastIndex q ".") = Some p
    /\ slice sm (LastIndex q "." + 1) (LastIndex sm "/") = Some sv
    /\ slice sm (LastIndex sm "/" + 1) (len sm) = Some m.

(** The calls that [finishTracer] makes: on the statistics and on the
    tracer controller. *)
Definition isFinishCall (e : Event) : bool :=
  match e with
  | SetPanicked _ | CallDoFinish _ _ _ | StatsReset => true
  | _ => false
  end.

(** * Proofs *)

(** ** Strings *)

Lemma len_nonneg (s : string) : 0 <= len s.
Proof. unfold len. lia. Qed.

Lemma len_String (c : ascii) (s : string) : len (String c s) = len s + 1.
Proof. unfold len. simpl String.length. lia. Qed.

Lemma len_append (a b : string) : len (a ++ b) = len a + len b.
Proof.
  unfold len. induction a as [|c a IH]; cbn [append String.length].
  - reflexivity.
  - lia.
Qed.

Lemma prefix_byte (c : ascii) (s : string) :
  prefix (String c EmptyString) s = startsWith c s.
Proof.
  destruct s as [|b s]; simpl.
  - reflexivity.
  - destruct (ascii_dec c b) as [->|Hne].
    + rewrite Ascii.eqb_refl. now destruct s.
    + symmetry. apply Ascii.eqb_neq. congruence.
Qed.

Lemma lastIndexFrom_step (i : Z) (b : ascii) (s substr : string) (found : Z) :
  lastIndexFrom i (String b s) substr found =
  lastIndexFrom (i + 1) s substr
    (if prefix substr (String b s) then i else found).
Proof. reflexivity. Qed.

Lemma lastIndexFrom_empty (i : Z) (substr : string) (found : Z) :
  lastIndexFrom i EmptyString substr found =
  if prefix substr EmptyString then i else found.
Proof. reflexivity. Qed.

(** A byte that does not occur is not found. *)
Lemma lastIndexFrom_absent (c : ascii) (s : string) :
  occurs c s = false ->
  forall i found, lastIndexFrom i s (String c EmptyString) found = found.
Proof.
  induction s as [|b s IH]; intros Hocc i found.
  - reflexivity.
  - simpl in Hocc. apply orb_false_iff in Hocc as [Hb Hs].
    rewrite lastIndexFrom_step, prefix_byte. simpl startsWith.
    rewrite Hb. now apply IH.
Qed.

(** The last occurrence of a byte is found where it is. *)
Lemma lastIndexFrom_last (c : ascii) (a b : string) :
  occurs c b = false ->
  forall i found,
    lastIndexFrom i (a ++ String c b) (String c EmptyString) found = i + len a.
Proof.
  intros Hocc. induction a as [|x a IH]; intros i found.
  - simpl append. rewrite lastIndexFrom_step, prefix_byte. simpl startsWith.
    rewrite Ascii.eqb_refl, (lastIndexFrom_absent c b Hocc).
    unfold len. simpl. lia.
  - simpl append. rewrite lastIndexFrom_step, IH, len_String. lia.
Qed.

(** What is found lies inside the string. *)
Lemma lastIndexFrom_range (c : ascii) (s : string) :
  forall i found,
    let r := lastIndexFrom i s (String c EmptyString) found in
    (occurs c s = false /\ r = found) \/ (occurs c s = true /\ i <= r < i + len s).
Proof.
  induction s as [|b s IH]; intros i found r.
  - left. split; reflexivity.
  - subst r. rewrite lastIndexFrom_step, prefix_byte. simpl startsWith.
    simpl occurs. rewrite len_String.
    pose proof (len_nonneg s) as Hlen.
    destruct (Ascii.eqb b c) eqn:Hb; simpl orb.
    + right. split; [reflexivity|].
      destruct (IH (i + 1) i) as [[_ Hr]|[_ Hr]]; simpl in Hr; lia.
    + destruct (IH (i + 1) found) as [[Ho Hr]|[Ho Hr]]; simpl in Hr.
      * left. now split.
      * right. split; [assumption|lia].
Qed.

Lemma LastIndex_absent (c : ascii) (s : string) :
  occurs c s = false -> LastIndex s (String c EmptyString) = -1.
Proof. intros H. unfold LastIndex. now apply lastIndexFrom_absent. Qed.

Lemma LastIndex_last (c : ascii) (a b : string) :
  occurs c b = false -> LastIndex (a ++ String c b) (String c EmptyString) = len a.
Proof. intros H. unfold LastIndex. now rewrite lastIndexFrom_last. Qed.

Lemma LastIndex_range (c : ascii) (s : string) :
  LastIndex s (String c EmptyString) <> -1 ->
  0 <= LastIndex s (String c EmptyString) < len s.
Proof.
  intros H. unfold LastIndex in *.
  destruct (lastIndexFrom_range c s 0 (-1)) as [[_ Hr]|[_ Hr]]; simpl in Hr.
  - contradiction.
  - lia.
Qed.

Lemma LastIndex_found_iff (c : ascii) (s : string) :
  LastIndex s (String c EmptyString) <> -1 <-> occurs c s = true.
Proof.
  split; intros H.
  - destruct (occurs c s) eqn:Ho; [reflexivity|].
    now apply LastIndex_absent in Ho.
  - unfold LastIndex.
    destruct (lastIndexFrom_range c s 0 (-1)) as [[Ho _]|[_ Hr]].
    + congruence.
    + simpl in Hr. lia.
Qed.

Lemma substring_0_all (s : string) : substring 0 (String.length s) s = s.
Proof. induction s as [|c s IH]; simpl; [reflexivity|now rewrite IH]. Qed.

Lemma substring_0_0 (s : string) : substring 0 0 s = EmptyString.
Proof. now destruct s. Qed.

Lemma substring_0_append (a b : string) :
  substring 0 (String.length a) (a ++ b) = a.
Proof.
  induction a as [|c a IH]; simpl.
  - apply substring_0_0.
  - now rewrite IH.
Qed.

Lemma substring_skip_append (a b : string) (n : nat) :
  substring (String.length a) n (a ++ b) = substring 0 n b.
Proof. induction a as [|c a IH]; simpl; [reflexivity|exact IH]. Qed.

Lemma substring_length (s : string) (n : nat) :
  (n <= String.length s)%nat -> String.length (substring 0 n s) = n.
Proof.
  revert n. induction s as [|c s IH]; intros n Hn; simpl in Hn.
  - assert (n = 0%nat) as -> by lia. reflexivity.
  - destruct n as [|n]; simpl; [reflexivity|]. rewrite IH; lia.
Qed.

Lemma slice_in_range (s : string) (lo hi : Z) :
  0 <= lo -> lo <= hi -> hi <= len s ->
  slice s lo hi = Some (substring (Z.to_nat lo) (Z.to_nat (hi - lo)) s).
Proof.
  intros H1 H2 H3. unfold slice.
  apply Z.leb_le in H1, H2, H3. now rewrite H1, H2, H3.
Qed.

Lemma substring_skip (a b : string) (k n : nat) :
  substring (String.length a + k) n (a ++ b) = substring k n b.
Proof. induction a as [|c a IH]; simpl; [reflexivity|exact IH]. Qed.

Lemma append_String_assoc (a : string) (c : ascii) (b d : string) :
  (a ++ String c b) ++ d = a ++ String c (b ++ d).
Proof. induction a as [|x a IH]; simpl; [reflexivity|now rewrite IH]. Qed.

(** The two slices at a byte of a string: what is before it, and what is
    after it. *)
Lemma slice_before (a : string) (c : ascii) (b : string) :
  slice (a ++ String c b) 0 (len a) = Some a.
Proof.
  rewrite slice_in_range.
  - rewrite Z.sub_0_r. unfold len. rewrite Nat2Z.id. cbn [Z.to_nat].
    now rewrite substring_0_append.
  - lia.
  - apply len_nonneg.
  - rewrite len_append, len_String. pose proof (len_nonneg b). lia.
Qed.

Lemma slice_after (a : string) (c : ascii) (b : string) :
  slice (a ++ String c b) (len a + 1) (len (a ++ String c b)) = Some b.
Proof.
  pose proof (len_nonneg a) as Ha. pose proof (len_nonneg b) as Hb.
  rewrite slice_in_range; rewrite ?len_append, ?len_String; try lia.
  replace (len a + (len b + 1) - (len a + 1)) with (len b) by lia.
  unfold len. rewrite Nat2Z.id.
  replace (Z.to_nat (Z.of_nat (String.length a) + 1))
    with (String.length a + 1)%nat by lia.
  rewrite substring_skip. cbn [substring Nat.add]. now rewrite substring_0_all.
Qed.

Lemma slice_between (a : string) (c : ascii) (b d : string) :
  slice (a ++ String c (b ++ d)) (len a + 1) (len a + 1 + len b) = Some b.
Proof.
  pose proof (len_nonneg a) as Ha. pose proof (len_nonneg b) as Hb.
  pose proof (len_nonneg d) as Hd.
  rewrite slice_in_range; rewrite ?len_append, ?len_String, ?len_append; try lia.
  replace (len a + 1 + len b - (len a + 1)) with (len b) by lia.
  unfold len. rewrite Nat2Z.id.
  replace (Z.to_nat (Z.of_nat (String.length a) + 1))
    with (String.length a + 1)%nat by lia.
  rewrite substring_skip. cbn [substring Nat.add]. now rewrite substring_0_append.
Qed.

(** A string that does not start with the separator is left as it is. *)
Lemma trimLeadingSlash_other (s : string) :
  startsWith "/" s = false -> trimLeadingSlash s = s.
Proof.
  destruct s as [|c s]; [reflexivity|]. cbn [startsWith]. intros H.
  destruct c as [b0 b1 b2 b3 b4 b5 b6 b7].
  destruct b0, b1, b2, b3, b4, b5, b6, b7; try reflexivity; discriminate H.
Qed.

(** ** Traces *)

Lemma count_app (p : Event -> bool) (l1 l2 : list Event) :
  count p (l1 ++ l2) = (count p l1 + count p l2)%nat.
Proof. unfold count. now rewrite filter_app, length_app. Qed.

Lemma filter_chainCalls (p : Event -> bool) :
  (forall h c, p (CallOnReadStream h c) = false) ->
  forall hs ctx, filter p (chainCalls hs ctx) = [].
Proof.
  intros Hp. induction hs as [|h hs IH]; intros ctx; simpl.
  - reflexivity.
  - rewrite Hp. destruct (OnReadStream h ctx) as [c [e|]]; [reflexivity|apply IH].
Qed.

Lemma count_chainCalls (p : Event -> bool) :
  (forall h c, p (CallOnReadStream h c) = false) ->
  forall hs ctx, count p (chainCalls hs ctx) = 0%nat.
Proof. intros Hp hs ctx. unfold count. now rewrite filter_chainCalls. Qed.

Lemma handlersCalled_app (l1 l2 : list Event) :
  handlersCalled (l1 ++ l2) = (handlersCalled l1 ++ handlersCalled l2)%list.
Proof.
  induction l1 as [|e l1 IH]; simpl; [reflexivity|].
  destruct e; simpl; now rewrite ?IH.
Qed.

(** A chain that passes has called every handler. *)
Lemma handlersCalled_passed (hs : list StreamingMetaHandler) :
  forall ctx ctx1,
    runChain hs ctx = Passed ctx1 -> handlersCalled (chainCalls hs ctx) = hs.
Proof.
  induction hs as [|h hs IH]; intros ctx ctx1 H; simpl in *.
  - reflexivity.
  - destruct (OnReadStream h ctx) as [c [e|]]; [discriminate|].
    destruct (runChain hs c) eqn:E; [|discriminate].
    f_equal. eapply IH; eassumption.
Qed.

(** A chain that fails at handler [n] has called the handlers up to [n],
    and there is such a handler. *)
Lemma handlersCalled_failed (hs : list StreamingMetaHandler) :
  forall ctx n c e,
    runChain hs ctx = Failed n c e ->
    handlersCalled (chainCalls hs ctx) = firstn (S n) hs /\ (n < List.length hs)%nat.
Proof.
  induction hs as [|h hs IH]; intros ctx n c e H; simpl in H.
  - discriminate.
  - cbn [chainCalls handlersCalled]. destruct (OnReadStream h ctx) as [c' [e'|]].
    + injection H as <- _ _. simpl. split; [now destruct hs|lia].
    + destruct (runChain hs c') eqn:E; [discriminate|].
      injection H as <- _ _. destruct (IH _ _ _ _ E) as [IH1 IH2].
      rewrite IH1. split; [reflexivity|simpl; lia].
Qed.

(** The first failure of a chain, handler by handler. *)
Lemma runChain_failed_split (hs : list StreamingMetaHandler) :
  forall ctx n c e,
    runChain hs ctx = Failed n c e ->
    exists pre h post c1,
      hs = (pre ++ h :: post)%list /\ List.length pre = n /\
      runChain pre ctx = Passed c1 /\ OnReadStream h c1 = (c, Some e).
Proof.
  induction hs as [|h hs IH]; intros ctx n c e H; simpl in H.
  - discriminate.
  - destruct (OnReadStream h ctx) as [c' [e'|]] eqn:Eh.
    + injection H as <- <- <-. exists [], h, hs, ctx. now repeat split.
    + destruct (runChain hs c') eqn:E; [discriminate|].
      injection H as <- <- <-.
      destruct (IH _ _ _ _ E) as (pre & h' & post & c1 & -> & Hl & Hp & Hh).
      exists (h :: pre), h', post, c1. simpl. rewrite Eh, Hp, Hl. now repeat split.
Qed.

(** ** The tracer bracket *)

Lemma finishTracer_readonly (t : svrTransHandler) (ctx : Context)
    (err : option error) (pe : option PanicValue) (w : World) :
  AsMutableRPCStats (Stats (ri w)) = None ->
  finishTracer t ctx err pe w = (Next tt, after w [Enter_finishTracer ctx err pe]).
Proof.
  intros H. unfold finishTracer, func, bind, call, getRI. simpl. now rewrite H.
Qed.

Lemma finishTracer_mutable (t : svrTransHandler) (ctx : Context)
    (err : option error) (w : World) (st : rpcStats) :
  AsMutableRPCStats (Stats (ri w)) = Some st ->
  finishTracer t ctx err None w =
    (Next tt,
     {| ri := withStats (ri w) {| panicErr := None |};
        trace := trace w ++ [Enter_finishTracer ctx err None;
                             CallDoFinish ctx (ri w) err;
                             StatsReset] |})
  /\ forall p,
      finishTracer t ctx err (Some p) w =
        (Next tt,
         {| ri := withStats (ri w) {| panicErr := None |};
            trace := trace w ++ [Enter_finishTracer ctx err (Some p);
                                 SetPanicked p;
                                 CallDoFinish ctx
                                   (withStats (ri w) {| panicErr := Some p |}) err;
                                 StatsReset] |}).
Proof.
  intros H. split; [|intros p];
    unfold finishTracer, func, bind, call, getRI, rpcStats_SetPanicked,
      TracerCtl_DoFinish, rpcStats_Reset, setStats, ret, bind, call, getRI;
    simpl; rewrite H; simpl; rewrite <- !app_assoc; reflexivity.
Qed.

(** [finishTracer] always returns, touches nothing of the invocation
    record, and extends the trace by its own entry first; what follows the
    entry are calls on the statistics and the tracer controller only. *)
Lemma finishTracer_returns (t : svrTransHandler) (ctx : Context)
    (err : option error) (pe : option PanicValue) (w : World) :
  exists post,
    finishTracer t ctx err pe w =
      (Next tt,
       {| ri := {| Invocation_ := Invocation_ (ri w);
                   Stats := Stats (ri (snd (finishTracer t ctx err pe w))) |};
          trace := trace w ++ Enter_finishTracer ctx err pe :: post |})
    /\ filter isWriteStatus post = []
    /\ filter isFinishTracer post = []
    /\ filter isCallEndpoint post = []
    /\ filter isErrorf post = []
    /\ filter isCallOnReadStream post = []
    /\ filter isCallDoStart post = []
    /\ filter isSetter post = []
    /\ filter isCallDoFinish post =
         match AsMutableRPCStats (Stats (ri w)) with
         | Some _ =>
             [CallDoFinish ctx
                match pe with
                | Some p => withStats (ri w) {| panicErr := Some p |}
                | None => ri w
                end err]
         | None => []
         end.
Proof.
  destruct (AsMutableRPCStats (Stats (ri w))) as [st|] eqn:E.
  - destruct (finishTracer_mutable t ctx err w st E) as [H0 H1].
    destruct pe as [p|].
    + rewrite (H1 p). eexists. split; [reflexivity|]. now repeat split.
    + rewrite H0. eexists. split; [reflexivity|]. now repeat split.
  - rewrite (finishTracer_readonly t ctx err pe w E). exists [].
    split; [|now repeat split].
    unfold after. simpl. destruct w as [[i s] tr]. reflexivity.
Qed.

Lemma finishTracer_Next (t : svrTransHandler) (ctx : Context)
    (err : option error) (pe : option PanicValue) (w : World) :
  fst (finishTracer t ctx err pe w) = Next tt.
Proof.
  destruct (finishTracer_returns t ctx err pe w) as (post & H & _).
  now rewrite H.
Qed.

Lemma func_finishTracer (t : svrTransHandler) (ctx : Context)
    (err : option error) (pe : option PanicValue) (w : World) :
  (let (f, w') := finishTracer t ctx err pe w in
   match f with
   | Next a => (Next a, w')
   | Return => (Next tt, w')
   | Panic p => (Panic p, w')
   end) = (Next tt, snd (finishTracer t ctx err pe w)).
Proof.
  pose proof (finishTracer_Next t ctx err pe w) as H.
  destruct (finishTracer t ctx err pe w) as [f w'].
  cbn [fst] in H. now subst f.
Qed.

(** The calls before the tracer starts are the protocol mark, handler
    calls and the start itself. *)
Lemma filter_openingCalls (p : Event -> bool)
    (hs : list StreamingMetaHandler) (ctx0 ctx1 : Context) :
  p (SetTransportProtocol GRPC) = false ->
  (forall h c, p (CallOnReadStream h c) = false) ->
  p (CallDoStart ctx1) = false ->
  filter p (openingCalls hs ctx0 ctx1) = [].
Proof.
  intros H1 H2 H3. unfold openingCalls. cbn [filter]. rewrite H1.
  rewrite filter_app, (filter_chainCalls p H2). cbn [filter app]. now rewrite H3.
Qed.

Lemma handlersCalled_openingCalls (hs : list StreamingMetaHandler)
    (ctx0 ctx1 : Context) :
  handlersCalled (openingCalls hs ctx0 ctx1) = handlersCalled (chainCalls hs ctx0).
Proof.
  unfold openingCalls. cbn [handlersCalled].
  rewrite handlersCalled_app. cbn [handlersCalled]. apply app_nil_r.
Qed.

(** A chain whose handlers [pre] pass and whose next handler [h] returns
    the error [e] fails there. *)
Lemma runChain_app_failed (pre : list StreamingMetaHandler) :
  forall (h : StreamingMetaHandler) (post : list StreamingMetaHandler)
         (ctx c1 c : Context) (e : error),
    runChain pre ctx = Passed c1 ->
    OnReadStream h c1 = (c, Some e) ->
    runChain (pre ++ h :: post) ctx = Failed (List.length pre) c e /\
    chainCalls (pre ++ h :: post) ctx =
      (chainCalls pre ctx ++ [CallOnReadStream h c1])%list.
Proof.
  induction pre as [|h0 pre IH]; intros h post ctx c1 c e Hp Hh.
  - injection Hp as <-. cbn [app runChain chainCalls List.length].
    now rewrite Hh.
  - cbn [app runChain chainCalls List.length] in *.
    destruct (OnReadStream h0 ctx) as [c' [e'|]]; [discriminate|].
    destruct (runChain pre c') eqn:E; [|discriminate].
    injection Hp as ->.
    destruct (IH h post c' c1 c e E Hh) as [-> ->]. now split.
Qed.

(** ** The task of a stream *)

Section Task.

Variable strconv_Quote : string -> string.
Variable debug_Stack : string.
Variable errCode : error -> codes.Code.

Local Abbreviation OnRead_stream := (OnRead_stream strconv_Quote debug_Stack errCode).
Local Abbreviation convertFromKitexToGrpc := (convertFromKitexToGrpc errCode).

Variable t : svrTransHandler.
Variable tr : ServerTransport.
Variable conn : option Conn.
Variable s : Stream.

(** The loop makes the calls of the chain, and on the first error writes
    its status and returns from the task. *)
Lemma forStreamingMetaHandlers_runChain (hs : list StreamingMetaHandler) :
  forall ctx w,
    forStreamingMetaHandlers errCode tr s hs ctx None w =
    match runChain hs ctx with
    | Passed c => (Next (c, None), after w (chainCalls hs ctx))
    | Failed _ _ e =>
        (Return,
         after w (chainCalls hs ctx ++ [WriteStatus s (convertFromKitexToGrpc e)]))
    end.
Proof.
  induction hs as [|h hs IH]; intros ctx w.
  - simpl. unfold ret, after. now rewrite app_nil_r; destruct w.
  - cbn [forStreamingMetaHandlers runChain chainCalls].
    unfold bind at 1. unfold call at 1.
    destruct (OnReadStream h ctx) as [c [e|]].
    + unfold bind, tr_WriteStatus, call, return_, after. simpl.
      now rewrite <- app_assoc.
    + rewrite IH. unfold after. simpl.
      destruct (runChain hs c); simpl; now rewrite <- !app_assoc.
Qed.

(** The call state and the context that [InitRPCInfoFunc] makes for the
    stream. *)
Variable ri0 : RPCInfo.
Variable ctx0 : Context.
Hypothesis Hinit :
  InitRPCInfoFunc (opt t) (Stream_Context s) (RemoteAddr tr) = (ri0, ctx0).

(** The chain of the handler, and the stream's method string without its
    leading separator. *)
Local Abbreviation hs := (StreamingMetaHandlers (opt t)).
Local Abbreviation sm := (trimLeadingSlash (Method s)).

(** The task up to the loop's end. *)
Ltac enter_task :=
  unfold OnRead_stream;
  rewrite Hinit;
  unfold func, bind at 1, call at 1;
  unfold bind at 1; rewrite forStreamingMetaHandlers_runChain.

(** A failed handshake: the status of the first error is the last call
    of the task. *)
Lemma task_handshake_failed (n : nat) (c : Context) (e : error) :
  runChain hs ctx0 = Failed n c e ->
  OnRead_stream t tr conn s =
    (Next tt,
     {| ri := ri0;
        trace := SetTransportProtocol GRPC ::
                 chainCalls hs ctx0 ++
                 [WriteStatus s (convertFromKitexToGrpc e)] |}).
Proof.
  intros Hchain. enter_task. rewrite Hchain. reflexivity.
Qed.

Variable ctx1 : Context.
Hypothesis Hpassed : runChain hs ctx0 = Passed ctx1.

(** The context of the task once the tracer has started. *)
Local Abbreviation ctx2 := (DoStart (TracerCtl (opt t)) ctx1 ri0).

(** The task from the start of the tracer to the deferred function. *)
Ltac start_tracer :=
  enter_task; rewrite Hpassed;
  unfold after; cbn [ri trace app];
  unfold bind at 1, startTracer, bind at 1, getRI at 1;
  unfold bind at 1, call at 1; cbn [ri trace ret];
  unfold defer_recover.

(** The task at its end: the deferred function has logged what it had to
    and calls [finishTracer], which returns. *)
Ltac finish_task :=
  unfold Logger_Errorf, tr_WriteStatus, return_, ret, bind, call,
    openingCalls;
  cbn [ri trace app];
  rewrite <- ?app_assoc; cbn [app];
  apply func_finishTracer.

Lemma task_no_separator :
  LastIndex sm "/" = -1 ->
  OnRead_stream t tr conn s =
    (Next tt,
     snd (finishTracer t ctx2 None None
            {| ri := ri0;
               trace := openingCalls hs ctx0 ctx1 ++
                        [WriteStatus s
                           (status.New codes.ResourceExhausted
                              ("malformed method name: " ++
                               strconv_Quote (Method s)))] |})).
Proof.
  intros Hpos. start_tracer. rewrite Hpos. cbn [Z.eqb Pos.eqb].
  finish_task.
Qed.

Variable pos : Z.
Hypothesis Hpos : LastIndex sm "/" = pos.
Hypothesis Hfound : pos <> -1.

(** The separator found lies inside the string: the two slices at it do
    not panic. *)
Lemma pos_range : 0 <= pos < len sm.
Proof. rewrite <- Hpos in *. now apply LastIndex_range. Qed.

Variables m q : string.
Hypothesis Hm : slice sm (pos + 1) (len sm) = Some m.
Hypothesis Hq : slice sm 0 pos = Some q.

(** The task from the search of the separator to the search of the dot. *)
Ltac resolve_method :=
  start_tracer; rewrite Hpos;
  destruct (Z.eqb_spec pos (-1)) as [|_]; [contradiction|];
  unfold bind at 1, sliceOrPanic at 1; rewrite Hm; unfold ret at 1;
  unfold bind at 1, ink_SetMethodName, bind at 1, call at 1;
  unfold bind at 1, getRI at 1, setInvocation at 1; cbn [ri trace Invocation_];
  unfold bind at 1, sliceOrPanic at 1; rewrite Hq; unfold ret at 1.

Lemma task_no_dot :
  LastIndex q "." = -1 ->
  OnRead_stream t tr conn s =
    (Next tt,
     snd (finishTracer t ctx2 None None
            {| ri := withInvocation ri0
                       {| PackageName := PackageName (Invocation_ ri0);
                          ServiceName := ServiceName (Invocation_ ri0);
                          MethodName := m |};
               trace := openingCalls hs ctx0 ctx1 ++
                        [SetMethodName m;
                         WriteStatus s
                           (status.New codes.ResourceExhausted
                              ("malformed package and service name: " ++
                               strconv_Quote (Method s)))] |})).
Proof.
  intros Hidx. resolve_method. rewrite Hidx. cbn [Z.eqb Pos.eqb].
  finish_task.
Qed.

Variable idx : Z.
Hypothesis Hidx : LastIndex q "." = idx.
Hypothesis Hdot : idx <> -1.

Lemma len_q : len q = pos.
Proof.
  pose proof pos_range as Hr. rewrite slice_in_range in Hq by lia.
  injection Hq as <-. unfold len in *.
  rewrite Z.sub_0_r. cbn [Z.to_nat]. rewrite substring_length; lia.
Qed.

(** The dot found lies before the separator: the two slices at it do not
    panic. *)
Lemma idx_range : 0 <= idx < pos.
Proof. rewrite <- len_q, <- Hidx in *. now apply LastIndex_range. Qed.

Variables p sv : string.
Hypothesis Hp : slice sm 0 idx = Some p.
Hypothesis Hsv : slice sm (idx + 1) pos = Some sv.

(** The call state and the calls of the task when it reaches the
    endpoint. *)
Local Abbreviation ri3 :=
  (withInvocation ri0
     {| PackageName := p; ServiceName := sv; MethodName := m |}).
Local Abbreviation calls3 :=
  ((openingCalls hs ctx0 ctx1 ++
    [SetMethodName m; SetPackageName p; SetServiceName sv])%list).

(** The task from the search of the dot to the call of the endpoint. *)
Ltac resolve_service :=
  resolve_method; rewrite Hidx;
  destruct (Z.eqb_spec idx (-1)) as [|_]; [contradiction|];
  unfold bind at 1, sliceOrPanic at 1; rewrite Hp; unfold ret at 1;
  unfold bind at 1, ink_SetPackageName, bind at 1, call at 1;
  unfold bind at 1, getRI at 1, setInvocation at 1; cbn [ri trace Invocation_];
  unfold bind at 1, sliceOrPanic at 1; rewrite Hsv; unfold ret at 1;
  unfold bind at 1, ink_SetServiceName, bind at 1, call at 1;
  unfold bind at 1, getRI at 1, setInvocation at 1; cbn [ri trace Invocation_];
  unfold bind at 1, callInkHdlFunc;
  unfold withInvocation;
  cbn [Invocation_ Stats PackageName ServiceName MethodName].

Lemma task_endpoint_unset :
  inkHdlFunc t = None ->
  let pv := RuntimeError "invalid memory address or nil pointer dereference" in
  OnRead_stream t tr conn s =
    (Next tt,
     snd (finishTracer t ctx2 None (Some pv)
            {| ri := ri3;
               trace := calls3 ++ [panicLog debug_Stack conn pv] |})).
Proof.
  intros Hf pv. resolve_service. rewrite Hf. unfold panic at 1, panicLog.
  destruct conn; finish_task.
Qed.

Variable f : Endpoint.
Hypothesis Hf : inkHdlFunc t = Some f.

Lemma task_endpoint_ok :
  f ctx2 s = Returns None ->
  OnRead_stream t tr conn s =
    (Next tt,
     snd (finishTracer t ctx2 None None
            {| ri := ri3;
               trace := calls3 ++ [CallEndpoint ctx2 s;
                                   WriteStatus s (status.New codes.OK "")] |})).
Proof.
  intros Hr. resolve_service. rewrite Hf. unfold bind at 1, call at 1.
  rewrite Hr. finish_task.
Qed.

Lemma task_endpoint_error (e : error) :
  f ctx2 s = Returns (Some e) ->
  OnRead_stream t tr conn s =
    (Next tt,
     snd (finishTracer t ctx2 None None
            {| ri := ri3;
               trace := calls3 ++ [CallEndpoint ctx2 s;
                                   WriteStatus s (convertFromKitexToGrpc e)] |})).
Proof.
  intros Hr. resolve_service. rewrite Hf. unfold bind at 1, call at 1.
  rewrite Hr. finish_task.
Qed.

Lemma task_endpoint_panic (pv : PanicValue) :
  f ctx2 s = Panics (Some pv) ->
  OnRead_stream t tr conn s =
    (Next tt,
     snd (finishTracer t ctx2 None (Some pv)
            {| ri := ri3;
               trace := calls3 ++ [CallEndpoint ctx2 s;
                                   panicLog debug_Stack conn pv] |})).
Proof.
  intros Hr. resolve_service. rewrite Hf. unfold bind at 1, call at 1.
  rewrite Hr. unfold panic at 1, panicLog.
  destruct conn; finish_task.
Qed.

(** A panic with nil: [recover] returns nil, as if nothing had happened;
    nothing is logged and [finishTracer] gets a nil panic value. *)
Lemma task_endpoint_panic_nil :
  f ctx2 s = Panics None ->
  OnRead_stream t tr conn s =
    (Next tt,
     snd (finishTracer t ctx2 None None
            {| ri := ri3;
               trace := calls3 ++ [CallEndpoint ctx2 s] |})).
Proof.
  intros Hr. resolve_service. rewrite Hf. unfold bind at 1, call at 1.
  rewrite Hr. unfold panic at 1.
  finish_task.
Qed.

End Task.

(** * The claims *)

Section Claims.

Variable strconv_Quote : string -> string.
Variable debug_Stack : string.
Variable errCode : error -> codes.Code.

Local Abbreviation OnRead_stream := (OnRead_stream strconv_Quote debug_Stack errCode).
Local Abbreviation convertFromKitexToGrpc := (convertFromKitexToGrpc errCode).

Variable t : svrTransHandler.
Variable tr : ServerTransport.
Variable conn : option Conn.
Variable s : Stream.

(** The call state and the context made for the stream. *)
Variable ri0 : RPCInfo.
Variable ctx0 : Context.
Hypothesis Hinit :
  InitRPCInfoFunc (opt t) (Stream_Context s) (RemoteAddr tr) = (ri0, ctx0).

(** The lemmas of the task, on [ri0] and [ctx0]. *)
Ltac on_init H :=
  specialize (H ri0 ctx0 Hinit).

(** The trace of a task that ended in [finishTracer]. *)
Ltac finished post :=
  match goal with
  | |- context [finishTracer ?t' ?c ?e ?p ?w] =>
      let E := fresh "E" in
      destruct (finishTracer_returns t' c e p w)
        as (post & E & Hws & Hft & Hce & Hef & Hrs & Hds & Hset & Hdf);
      rewrite E; clear E; unfold withInvocation in *;
      cbn [snd fst trace ri Invocation_ Stats] in *
  end.

Ltac opening :=
  rewrite ?filter_app, ?filter_openingCalls by reflexivity.

(** C2, as the code has it: when a metadata handler of the chain is the
    first to return an error (the handlers [pre] before it pass, [h]
    fails with [e]), the task calls the handlers up to [h] and none after
    it, writes the translated status of [e] as its only status and as
    its last call, never calls the endpoint -- and neither starts nor
    finishes the tracer: the return is taken before the tracer bracket
    is opened. *)
Theorem handshake_failure_short_circuits
    (pre post : list StreamingMetaHandler) (h : StreamingMetaHandler)
    (c1 c : Context) (e : error) :
  StreamingMetaHandlers (opt t) = (pre ++ h :: post)%list ->
  runChain pre ctx0 = Passed c1 ->
  OnReadStream h c1 = (c, Some e) ->
  let T := trace (snd (OnRead_stream t tr conn s)) in
  T = (SetTransportProtocol GRPC :: chainCalls pre ctx0 ++
       [CallOnReadStream h c1; WriteStatus s (convertFromKitexToGrpc e)])%list
  /\ handlersCalled T = (pre ++ [h])%list
  /\ filter isWriteStatus T = [WriteStatus s (convertFromKitexToGrpc e)]
  /\ count isCallEndpoint T = 0%nat
  /\ count isCallDoStart T = 0%nat
  /\ count isFinishTracer T = 0%nat
  /\ count isCallDoFinish T = 0%nat.
Proof.
  intros Hhs Hpre Hh T.
  destruct (runChain_app_failed pre h post ctx0 c1 c e Hpre Hh) as [Hrun Hcalls].
  pose proof (task_handshake_failed strconv_Quote debug_Stack errCode
                t tr conn s) as H.
  on_init H. rewrite Hhs in H. specialize (H _ _ _ Hrun).
  subst T. rewrite H. cbn [snd trace]. rewrite Hcalls, <- app_assoc.
  cbn [app]. split; [reflexivity|].
  unfold count. cbn [handlersCalled filter isWriteStatus isCallEndpoint
                       isCallDoStart isFinishTracer isCallDoFinish].
  rewrite handlersCalled_app, !filter_app,
    !filter_chainCalls by reflexivity.
  rewrite (handlersCalled_passed pre ctx0 c1 Hpre).
  now repeat split.
Qed.

Section Passed.

Variable ctx1 : Context.
Hypothesis Hpassed : runChain (StreamingMetaHandlers (opt t)) ctx0 = Passed ctx1.

(** The context of the task once the tracer has started. *)
Local Abbreviation ctx2 := (DoStart (TracerCtl (opt t)) ctx1 ri0).
Local Abbreviation sm := (trimLeadingSlash (Method s)).

(** C5: when the handshake has passed and the method string, without one
    leading separator, contains no separator, the task writes exactly one
    status, of code ResourceExhausted and with the message
    "malformed method name: " followed by the quoted raw method string,
    and never calls the endpoint. *)
Theorem malformed_method_name :
  occurs "/" sm = false ->
  let T := trace (snd (OnRead_stream t tr conn s)) in
  filter isWriteStatus T =
    [WriteStatus s (status.New codes.ResourceExhausted
                      ("malformed method name: " ++ strconv_Quote (Method s)))]
  /\ count isCallEndpoint T = 0%nat
  /\ filter isSetter T = [].
Proof.
  intros Hocc T. apply LastIndex_absent in Hocc.
  pose proof (task_no_separator strconv_Quote debug_Stack errCode
                t tr conn s) as H.
  on_init H. specialize (H ctx1 Hpassed Hocc).
  subst T. rewrite H. finished post.
  unfold count. opening. cbn [filter isWriteStatus isCallEndpoint isSetter app].
  rewrite Hws, Hce, Hset. now repeat split.
Qed.

Section Found.

Variable pos : Z.
Variable q : string.
Hypothesis Hpos : LastIndex sm "/" = pos.
Hypothesis Hfound : pos <> -1.
Hypothesis Hq : slice sm 0 pos = Some q.

(** The method segment [sm[pos+1:]] exists. *)
Lemma method_segment : exists m, slice sm (pos + 1) (len sm) = Some m.
Proof.
  pose proof (pos_range s pos Hpos Hfound) as Hr.
  eexists. apply slice_in_range; lia.
Qed.

(** C6, as the code has it: when the handshake has passed, the last
    separator of the method string (without its leading one) is found at
    [pos] and the text [q] before it contains no dot, the task writes
    exactly one status, of code ResourceExhausted and with the message
    "malformed package and service name: " followed by the quoted raw
    method string; it never calls the endpoint, and it enters
    [finishTracer] exactly once, right after the status is written.  The
    finish hooks of the tracer controller are called exactly once when the
    statistics are mutable, and not at all when the statistics have no
    mutable view. *)
Theorem malformed_service_name :
  occurs "." q = false ->
  let T := trace (snd (OnRead_stream t tr conn s)) in
  let st := status.New codes.ResourceExhausted
              ("malformed package and service name: " ++
               strconv_Quote (Method s)) in
  filter isWriteStatus T = [WriteStatus s st]
  /\ count isCallEndpoint T = 0%nat
  /\ filter isFinishTracer T = [Enter_finishTracer ctx2 None None]
  /\ (exists before post,
        T = (before ++ WriteStatus s st ::
             Enter_finishTracer ctx2 None None :: post)%list
        /\ count isCallDoFinish before = 0%nat)
  /\ count isCallDoFinish T =
       match AsMutableRPCStats (Stats ri0) with
       | Some _ => 1%nat
       | None => 0%nat
       end.
Proof.
  intros Hocc T st. apply LastIndex_absent in Hocc.
  destruct method_segment as [m Hm].
  pose proof (task_no_dot strconv_Quote debug_Stack errCode t tr conn s) as H.
  on_init H. specialize (H ctx1 Hpassed pos Hpos Hfound m q Hm Hq Hocc).
  subst T st. rewrite H. finished post.
  unfold count. opening.
  cbn [filter isWriteStatus isCallEndpoint isFinishTracer isCallDoFinish app].
  rewrite Hws, Hce, Hft, Hdf. repeat split.
  - exists (openingCalls (StreamingMetaHandlers (opt t)) ctx0 ctx1 ++
            [SetMethodName m])%list, post.
    split; [rewrite <- !app_assoc; reflexivity|].
    opening. reflexivity.
  - now destruct (AsMutableRPCStats (Stats ri0)).
Qed.

(** C9: on that same failure the method name of the invocation record
    has been set to the segment after the separator, [sm[pos+1:]], by
    the time the status is written, and stays so; the package and
    service names are never set and keep the values they had. *)
Theorem malformed_service_name_sets_method :
  LastIndex q "." = -1 ->
  exists m,
    slice sm (pos + 1) (len sm) = Some m
    /\ Invocation_ (ri (snd (OnRead_stream t tr conn s))) =
         {| PackageName := PackageName (Invocation_ ri0);
            ServiceName := ServiceName (Invocation_ ri0);
            MethodName := m |}
    /\ filter isSetter (trace (snd (OnRead_stream t tr conn s))) =
         [SetMethodName m]
    /\ exists before st post,
         trace (snd (OnRead_stream t tr conn s)) =
           (before ++ SetMethodName m :: WriteStatus s st :: post)%list
         /\ status.Code st = codes.ResourceExhausted.
Proof.
  intros Hidx. destruct method_segment as [m Hm]. exists m.
  pose proof (task_no_dot strconv_Quote debug_Stack errCode t tr conn s) as H.
  on_init H. specialize (H ctx1 Hpassed pos Hpos Hfound m q Hm Hq Hidx).
  rewrite H. finished post. opening. cbn [filter isSetter app].
  rewrite Hset. repeat split; try assumption.
  eexists (openingCalls (StreamingMetaHandlers (opt t)) ctx0 ctx1), _, _.
  rewrite <- app_assoc. cbn [app]. split; reflexivity.
Qed.

Section Resolved.

Variable idx : Z.
Hypothesis Hidx : LastIndex q "." = idx.
Hypothesis Hdot : idx <> -1.

(** The three segments of a method string that resolves. *)
Lemma segments :
  exists p sv m,
    slice sm 0 idx = Some p /\ slice sm (idx + 1) pos = Some sv /\
    slice sm (pos + 1) (len sm) = Some m.
Proof.
  destruct method_segment as [m Hm].
  pose proof (pos_range s pos Hpos Hfound) as Hr.
  pose proof (idx_range s pos Hpos Hfound m q Hm Hq idx Hidx Hdot) as Hi.
  exists (substring (Z.to_nat 0) (Z.to_nat (idx - 0)) sm),
    (substring (Z.to_nat (idx + 1)) (Z.to_nat (pos - (idx + 1))) sm), m.
  repeat split; [apply slice_in_range; lia ..|assumption].
Qed.

(** A task whose method string resolves sets the three names and goes on
    to the endpoint; what it does there depends on the endpoint, and any
    status it writes is the endpoint's. *)
Lemma task_resolved (p sv m : string) :
  slice sm 0 idx = Some p ->
  slice sm (idx + 1) pos = Some sv ->
  slice sm (pos + 1) (len sm) = Some m ->
  exists pe tail,
    OnRead_stream t tr conn s =
      (Next tt,
       snd (finishTracer t ctx2 None pe
              {| ri := withInvocation ri0
                         {| PackageName := p; ServiceName := sv;
                            MethodName := m |};
                 trace := (openingCalls (StreamingMetaHandlers (opt t)) ctx0 ctx1 ++
                           [SetMethodName m; SetPackageName p; SetServiceName sv])
                          ++ tail |}))
    /\ filter isSetter tail = []
    /\ forall st,
         In st (filter isWriteStatus tail) ->
         exists f,
           inkHdlFunc t = Some f /\
           (f ctx2 s = Returns None /\ st = WriteStatus s (status.New codes.OK "")
            \/ exists e, f ctx2 s = Returns (Some e) /\
                         st = WriteStatus s (convertFromKitexToGrpc e)).
Proof.
  intros Hp Hsv Hm.
  destruct (inkHdlFunc t) as [f|] eqn:Hf.
  - destruct (f ctx2 s) as [[e|]|[pv|]] eqn:Hr.
    + pose proof (task_endpoint_error strconv_Quote debug_Stack errCode
                    t tr conn s) as H.
      on_init H.
      specialize (H ctx1 Hpassed pos Hpos Hfound m q Hm Hq idx Hidx Hdot
                    p sv Hp Hsv f Hf e Hr).
      eexists _, _. split; [exact H|]. split; [reflexivity|].
      intros st [<-|[]]. exists f. split; [reflexivity|]. right. now exists e.
    + pose proof (task_endpoint_ok strconv_Quote debug_Stack errCode
                    t tr conn s) as H.
      on_init H.
      specialize (H ctx1 Hpassed pos Hpos Hfound m q Hm Hq idx Hidx Hdot
                    p sv Hp Hsv f Hf Hr).
      eexists _, _. split; [exact H|]. split; [reflexivity|].
      intros st [<-|[]]. exists f. split; [reflexivity|]. now left.
    + pose proof (task_endpoint_panic strconv_Quote debug_Stack errCode
                    t tr conn s) as H.
      on_init H.
      specialize (H ctx1 Hpassed pos Hpos Hfound m q Hm Hq idx Hidx Hdot
                    p sv Hp Hsv f Hf pv Hr).
      eexists _, _. split; [exact H|].
      unfold panicLog. destruct conn; split; try reflexivity; intros st [].
    + pose proof (task_endpoint_panic_nil strconv_Quote debug_Stack errCode
                    t tr conn s) as H.
      on_init H.
      specialize (H ctx1 Hpassed pos Hpos Hfound m q Hm Hq idx Hidx Hdot
                    p sv Hp Hsv f Hf Hr).
      eexists _, _. split; [exact H|]. split; [reflexivity|]. intros st [].
  - pose proof (task_endpoint_unset strconv_Quote debug_Stack errCode
                  t tr conn s) as H.
    on_init H.
    specialize (H ctx1 Hpassed pos Hpos Hfound m q Hm Hq idx Hidx Hdot
                  p sv Hp Hsv Hf).
    eexists _, _. split; [exact H|].
    unfold panicLog. destruct conn; split; try reflexivity; intros st [].
Qed.

(** C1, as the code has it: when the handshake has passed, the method
    string resolves and the endpoint panics with [v], the task recovers:
    it returns normally, calls the endpoint once, writes no status to the
    stream and enters [finishTracer] exactly once, with what [recover]
    returned, [v].  When [v] is a value, the panic is logged once, with
    the value and the captured stack, before [finishTracer] is entered;
    when it is nil ([panic(nil)]), [recover] returns nil and nothing is
    logged.  The finish hooks of the tracer controller are called once
    when the statistics are mutable (and then see the panic value
    recorded in them), and not at all when they have no mutable view. *)
Theorem endpoint_panic_contained (f : Endpoint) (v : option PanicValue) :
  inkHdlFunc t = Some f ->
  f ctx2 s = Panics v ->
  let R := OnRead_stream t tr conn s in
  let T := trace (snd R) in
  fst R = Next tt
  /\ filter isFinishTracer T = [Enter_finishTracer ctx2 None v]
  /\ count isWriteStatus T = 0%nat
  /\ count isCallEndpoint T = 1%nat
  /\ match v with
     | Some pv =>
         filter isErrorf T = [panicLog debug_Stack conn pv]
         /\ (exists format args,
                panicLog debug_Stack conn pv = Errorf format args /\
                In (ArgPanic pv) args /\ In (ArgStack debug_Stack) args)
         /\ (exists before post,
                T = (before ++ panicLog debug_Stack conn pv ::
                     Enter_finishTracer ctx2 None (Some pv) :: post)%list)
     | None => count isErrorf T = 0%nat
     end
  /\ match AsMutableRPCStats (Stats ri0) with
     | Some _ =>
         exists r,
           filter isCallDoFinish T = [CallDoFinish ctx2 r None] /\
           forall pv, v = Some pv ->
                      Stats r = MutableStats {| panicErr := Some pv |}
     | None => count isCallDoFinish T = 0%nat
     end.
Proof.
  intros Hf Hr R T.
  destruct segments as (p & sv & m & Hp & Hsv & Hm).
  destruct v as [pv|].
  - pose proof (task_endpoint_panic strconv_Quote debug_Stack errCode
                  t tr conn s) as H.
    on_init H.
    specialize (H ctx1 Hpassed pos Hpos Hfound m q Hm Hq idx Hidx Hdot
                  p sv Hp Hsv f Hf pv Hr).
    subst T R. rewrite H. finished post. split; [reflexivity|].
    unfold count. opening.
    assert (Hlog : exists format args,
               panicLog debug_Stack conn pv = Errorf format args /\
               In (ArgPanic pv) args /\ In (ArgStack debug_Stack) args).
    { unfold panicLog. destruct conn; eexists _, _;
        (split; [reflexivity|]); cbn [In]; tauto. }
    destruct Hlog as (format & args & Hlog & Hin1 & Hin2).
    rewrite Hlog.
    cbn [filter isErrorf isWriteStatus isCallEndpoint isFinishTracer
           isCallDoFinish app].
    rewrite Hws, Hce, Hft, Hef, Hdf.
    split; [reflexivity|]. split; [reflexivity|]. split; [reflexivity|].
    split.
    + split; [reflexivity|]. split; [now exists format, args|].
      exists ((openingCalls (StreamingMetaHandlers (opt t)) ctx0 ctx1 ++
               [SetMethodName m; SetPackageName p; SetServiceName sv]) ++
              [CallEndpoint ctx2 s])%list, post.
      rewrite <- !app_assoc. reflexivity.
    + destruct (AsMutableRPCStats (Stats ri0)); [|reflexivity].
      eexists. split; [reflexivity|].
      intros pv' Hpv. injection Hpv as <-. reflexivity.
  - pose proof (task_endpoint_panic_nil strconv_Quote debug_Stack errCode
                  t tr conn s) as H.
    on_init H.
    specialize (H ctx1 Hpassed pos Hpos Hfound m q Hm Hq idx Hidx Hdot
                  p sv Hp Hsv f Hf Hr).
    subst T R. rewrite H. finished post. split; [reflexivity|].
    unfold count. opening.
    cbn [filter isErrorf isWriteStatus isCallEndpoint isFinishTracer
           isCallDoFinish app].
    rewrite Hws, Hce, Hft, Hef, Hdf.
    split; [reflexivity|]. split; [reflexivity|]. split; [reflexivity|].
    split; [reflexivity|].
    destruct (AsMutableRPCStats (Stats ri0)); [|reflexivity].
    eexists. split; [reflexivity|]. discriminate.
Qed.

(** C3, as the code has it: when the handshake has passed, the method
    string resolves and the endpoint returns, the task writes exactly one
    status -- OK with an empty message when the endpoint returns no error,
    otherwise the translation of the error it returns, whose message is
    the error's text -- and enters [finishTracer] exactly once, right
    after the status is written.  The finish hooks of the tracer
    controller are called exactly once, after the status is written, when
    the statistics are mutable, and not at all when the statistics have no
    mutable view. *)
Theorem endpoint_return_one_status (f : Endpoint) (r : option error) :
  inkHdlFunc t = Some f ->
  f ctx2 s = Returns r ->
  let T := trace (snd (OnRead_stream t tr conn s)) in
  let st := match r with
            | None => status.New codes.OK ""
            | Some e => convertFromKitexToGrpc e
            end in
  filter isWriteStatus T = [WriteStatus s st]
  /\ match r with
     | None => status.Code st = codes.OK /\ status.Message st = ""
     | Some e => status.Message st = Error e
     end
  /\ filter isFinishTracer T = [Enter_finishTracer ctx2 None None]
  /\ (exists before post,
        T = (before ++ WriteStatus s st ::
             Enter_finishTracer ctx2 None None :: post)%list
        /\ count isWriteStatus before = 0%nat
        /\ count isFinishTracer before = 0%nat
        /\ count isCallDoFinish before = 0%nat)
  /\ count isCallEndpoint T = 1%nat
  /\ count isCallDoFinish T =
       match AsMutableRPCStats (Stats ri0) with
       | Some _ => 1%nat
       | None => 0%nat
       end.
Proof.
  intros Hf Hr T st.
  destruct segments as (p & sv & m & Hp & Hsv & Hm).
  assert (H : OnRead_stream t tr conn s =
              (Next tt,
               snd (finishTracer t ctx2 None None
                      {| ri := withInvocation ri0
                                 {| PackageName := p; ServiceName := sv;
                                    MethodName := m |};
                         trace := (openingCalls (StreamingMetaHandlers (opt t))
                                     ctx0 ctx1 ++
                                   [SetMethodName m; SetPackageName p;
                                    SetServiceName sv]) ++
                                  [CallEndpoint ctx2 s; WriteStatus s st] |}))).
  { destruct r as [e|].
    - pose proof (task_endpoint_error strconv_Quote debug_Stack errCode
                    t tr conn s) as H.
      on_init H.
      exact (H ctx1 Hpassed pos Hpos Hfound m q Hm Hq idx Hidx Hdot
               p sv Hp Hsv f Hf e Hr).
    - pose proof (task_endpoint_ok strconv_Quote debug_Stack errCode
                    t tr conn s) as H.
      on_init H.
      exact (H ctx1 Hpassed pos Hpos Hfound m q Hm Hq idx Hidx Hdot
               p sv Hp Hsv f Hf Hr). }
  subst T. rewrite H. finished post.
  unfold count. opening.
  cbn [filter isWriteStatus isCallEndpoint isFinishTracer isCallDoFinish app].
  rewrite Hws, Hce, Hft, Hdf. repeat split.
  - subst st. destruct r; [reflexivity|now split].
  - exists ((openingCalls (StreamingMetaHandlers (opt t)) ctx0 ctx1 ++
             [SetMethodName m; SetPackageName p; SetServiceName sv]) ++
            [CallEndpoint ctx2 s])%list, post.
    split; [rewrite <- !app_assoc; reflexivity|].
    opening. cbn [filter isWriteStatus isFinishTracer isCallDoFinish app
                    List.length].
    now repeat split.
  - now destruct (AsMutableRPCStats (Stats ri0)).
Qed.

(** C8: whenever the last separator of the method string (without its
    leading one) and the last dot before it are both found, the three
    slices [sm[:idx]], [sm[idx+1:pos]] and [sm[pos+1:]] are taken without
    a panic and recorded as package, service and method name, whether or
    not any of them is empty; the task then goes on to the endpoint, and
    the only status it may write is the one of the endpoint's return --
    no malformed-name status. *)
Theorem segments_recorded_unvalidated :
  exists p sv m,
    slice sm 0 idx = Some p
    /\ slice sm (idx + 1) pos = Some sv
    /\ slice sm (pos + 1) (len sm) = Some m
    /\ Invocation_ (ri (snd (OnRead_stream t tr conn s))) =
         {| PackageName := p; ServiceName := sv; MethodName := m |}
    /\ filter isSetter (trace (snd (OnRead_stream t tr conn s))) =
         [SetMethodName m; SetPackageName p; SetServiceName sv]
    /\ forall e,
         In e (filter isWriteStatus (trace (snd (OnRead_stream t tr conn s)))) ->
         exists f,
           inkHdlFunc t = Some f /\
           (f ctx2 s = Returns None /\
            e = WriteStatus s (status.New codes.OK "")
            \/ exists err, f ctx2 s = Returns (Some err) /\
                           e = WriteStatus s (convertFromKitexToGrpc err)).
Proof.
  destruct segments as (p & sv & m & Hp & Hsv & Hm). exists p, sv, m.
  destruct (task_resolved p sv m Hp Hsv Hm) as (pe & tail & H & Htail & Hst).
  rewrite H. finished post. opening.
  cbn [filter isSetter isWriteStatus app]. rewrite Hset, Hws, Htail, !app_nil_r.
  now repeat split.
Qed.

End Resolved.

End Found.

(** C4: for a method string [pkg.svc/m], with or without one leading
    separator -- [m] without a separator, [svc] without a dot, [pkg] not
    itself starting with the separator -- the task whose handshake has
    passed records package [pkg], service [svc] and method [m] on the
    invocation record, the same for both forms; the separator it cuts at
    is the last one, and the dot the last one before it. *)
Theorem method_name_resolution (pkg svc m : string) :
  occurs "/" m = false ->
  occurs "." svc = false ->
  startsWith "/" pkg = false ->
  let body := pkg ++ "." ++ svc ++ "/" ++ m in
  Method s = body \/ Method s = "/" ++ body ->
  Invocation_ (ri (snd (OnRead_stream t tr conn s))) =
    {| PackageName := pkg; ServiceName := svc; MethodName := m |}
  /\ filter isSetter (trace (snd (OnRead_stream t tr conn s))) =
       [SetMethodName m; SetPackageName pkg; SetServiceName svc]
  /\ LastIndex sm "/" = len (pkg ++ "." ++ svc)
  /\ LastIndex (pkg ++ "." ++ svc) "." = len pkg.
Proof.
  intros Hm Hsvc Hpkg body Hform.
  assert (Hsm : sm = (pkg ++ String "." svc) ++ String "/" m).
  { rewrite append_String_assoc.
    destruct Hform as [-> | ->]; subst body; cbn [append trimLeadingSlash].
    - apply trimLeadingSlash_other.
      destruct pkg; [reflexivity|exact Hpkg].
    - reflexivity. }
  set (qs := pkg ++ String "." svc) in *.
  assert (Hpos : LastIndex sm "/" = len qs)
    by (rewrite Hsm; now apply LastIndex_last).
  assert (Hidx : LastIndex qs "." = len pkg) by now apply LastIndex_last.
  assert (Hq : slice sm 0 (len qs) = Some qs)
    by (rewrite Hsm; apply slice_before).
  assert (Hms : slice sm (len qs + 1) (len sm) = Some m)
    by (rewrite Hsm; apply slice_after).
  assert (Hp : slice sm 0 (len pkg) = Some pkg).
  { rewrite Hsm. unfold qs. rewrite append_String_assoc. apply slice_before. }
  assert (Hsv : slice sm (len pkg + 1) (len qs) = Some svc).
  { rewrite Hsm. unfold qs at 1. rewrite append_String_assoc.
    replace (len qs) with (len pkg + 1 + len svc)
      by (unfold qs; rewrite len_append, len_String; lia).
    apply slice_between. }
  pose proof (len_nonneg qs) as Hq0. pose proof (len_nonneg pkg) as Hp0.
  assert (Hfound : len qs <> -1) by lia.
  assert (Hdot : len pkg <> -1) by lia.
  destruct (task_resolved (len qs) qs Hpos Hfound Hq (len pkg) Hidx Hdot
              pkg svc m Hp Hsv Hms) as (pe & tail & H & Htail & _).
  rewrite H. finished post. opening.
  cbn [filter isSetter app]. rewrite Hset, Htail.
  repeat split; assumption.
Qed.

End Passed.

End Claims.

(** C7: on a netpoll connection [OnActive] sets the read timeout to
    [Infinity], the unbounded duration, and returns the context it was
    given with a nil error; on no connection at all does it return an
    error. *)
Theorem OnActive_unbounded_read_timeout
    (t : svrTransHandler) (ctx : Context) (c : Connection) :
  OnActive t ctx (NetpollConn c) =
    (Next (ctx, None), NetpollConn (SetReadTimeout c Infinity))
  /\ readTimeout (SetReadTimeout c Infinity) = Infinity
  /\ Connection_RemoteAddr (SetReadTimeout c Infinity) = Connection_RemoteAddr c
  /\ forall (conn conn' : Conn) (ctx' : Context) (e : error),
       OnActive t ctx conn <> (Next (ctx', Some e), conn').
Proof.
  repeat split. intros conn conn' ctx' e. destruct conn; discriminate.
Qed.

(** No duration of the int64 range exceeds [Infinity]. *)
Lemma Infinity_largest_duration (d : Z) :
  - 2 ^ 63 <= d < 2 ^ 63 -> d <= Infinity.
Proof. unfold Infinity. lia. Qed.

(** C10: [finishTracer] on statistics without a mutable view returns at
    once: the call state is as it was, and the trace has gained the entry
    of the call and nothing else -- no finish hook, no reset.  With a
    mutable view it first records the panic value, when there is one, in
    the statistics, then calls the finish hooks with the error it was
    given (they see the statistics with the panic value, not yet reset),
    and resets the statistics last. *)
Theorem finishTracer_no_op_without_mutable_stats
    (t : svrTransHandler) (ctx : Context) (err : option error)
    (pe : option PanicValue) (w : World) :
  match AsMutableRPCStats (Stats (ri w)) with
  | None =>
      finishTracer t ctx err pe w =
        (Next tt, {| ri := ri w;
                     trace := trace w ++ [Enter_finishTracer ctx err pe] |})
  | Some _ =>
      finishTracer t ctx err pe w =
        (Next tt,
         {| ri := withStats (ri w) {| panicErr := None |};
            trace :=
              trace w ++
              Enter_finishTracer ctx err pe ::
              match pe with
              | Some p =>
                  [SetPanicked p;
                   CallDoFinish ctx (withStats (ri w) {| panicErr := Some p |}) err;
                   StatsReset]
              | None => [CallDoFinish ctx (ri w) err; StatsReset]
              end |})
  end.
Proof.
  destruct (AsMutableRPCStats (Stats (ri w))) as [st|] eqn:E.
  - destruct (finishTracer_mutable t ctx err w st E) as [H0 H1].
    destruct pe as [p|]; [apply H1|apply H0].
  - now apply finishTracer_readonly.
Qed.

(** * The claims on sample streams *)

Example scenario_echo :
  sampleRun [passHandler "auth"] echoOK "/echo.EchoService/Echo" =
    (Next tt,
     {| ri := {| Invocation_ := {| PackageName := "echo";
                                   ServiceName := "EchoService";
                                   MethodName := "Echo" |};
                 Stats := MutableStats {| panicErr := None |} |};
        trace :=
          let ctx0 := [("remote", "10.0.0.1:8888")] in
          let ctx1 := ("auth", "seen") :: ctx0 in
          let ctx2 := ("trace", "started") :: ctx1 in
          let s := sampleStream "/echo.EchoService/Echo" in
          [SetTransportProtocol GRPC;
           CallOnReadStream (passHandler "auth") ctx0;
           CallDoStart ctx1;
           SetMethodName "Echo"; SetPackageName "echo";
           SetServiceName "EchoService";
           CallEndpoint ctx2 s;
           WriteStatus s (status.New codes.OK "");
           Enter_finishTracer ctx2 None None;
           CallDoFinish ctx2
             {| Invocation_ := {| PackageName := "echo";
                                  ServiceName := "EchoService";
                                  MethodName := "Echo" |};
                Stats := MutableStats {| panicErr := None |} |} None;
           StatsReset] |}).
Proof. reflexivity. Qed.

Example scenario_bad_method :
  filter isWriteStatus (trace (snd (sampleRun [] echoOK "BadMethod"))) =
    [WriteStatus (sampleStream "BadMethod")
       (status.New codes.ResourceExhausted
          ("malformed method name: " ++ quoteASCII "BadMethod"))]
  /\ count isCallEndpoint (trace (snd (sampleRun [] echoOK "BadMethod"))) = 0%nat.
Proof. split; reflexivity. Qed.

Example scenario_no_service :
  filter isWriteStatus (trace (snd (sampleRun [] echoOK "/noservice/Method"))) =
    [WriteStatus (sampleStream "/noservice/Method")
       (status.New codes.ResourceExhausted
          ("malformed package and service name: " ++
           quoteASCII "/noservice/Method"))]
  /\ count isCallEndpoint
       (trace (snd (sampleRun [] echoOK "/noservice/Method"))) = 0%nat.
Proof. split; reflexivity. Qed.

(** A method string that is only a leading separator and a name has no
    separator left: the method name is the malformed one. *)
Example scenario_only_leading_separator :
  filter isWriteStatus (trace (snd (sampleRun [] echoOK "/Method"))) =
    [WriteStatus (sampleStream "/Method")
       (status.New codes.ResourceExhausted
          ("malformed method name: " ++ quoteASCII "/Method"))].
Proof. reflexivity. Qed.

(** The error that [finishTracer] is given is the variable of the task
    that the handshake loop assigns, nil once the loop is through: the
    error that the endpoint returns is written as a status, not handed to
    the tracer. *)
Example scenario_business_error :
  let T := trace (snd (sampleRun [] echoFails "/echo.EchoService/Echo")) in
  filter isWriteStatus T =
    [WriteStatus (sampleStream "/echo.EchoService/Echo")
       (status.New codes.Internal "no such user")]
  /\ filter isFinishTracer T =
       [Enter_finishTracer [("trace", "started"); ("remote", "10.0.0.1:8888")]
          None None].
Proof. split; reflexivity. Qed.

(** C2, as stated, fails: the second of three handlers rejects the call;
    its status is written, the third handler and the endpoint are not
    called -- and [finishTracer] is not entered once, but never. *)
Lemma handshake_failure_finish_counterexample :
  let hs := [passHandler "a"; failHandler errDenied; passHandler "c"] in
  let T := trace (snd (sampleRun hs echoOK "/echo.EchoService/Echo")) in
  runChain hs (snd (sampleInit [] "10.0.0.1:8888")) =
    Failed 1 [("a", "seen"); ("remote", "10.0.0.1:8888")] errDenied
  /\ ~ (filter isWriteStatus T =
          [WriteStatus (sampleStream "/echo.EchoService/Echo")
             (convertFromKitexToGrpc sampleErrCode errDenied)]
        /\ handlersCalled T = [passHandler "a"; failHandler errDenied]
        /\ count isCallEndpoint T = 0%nat
        /\ count isFinishTracer T = 1%nat).
Proof.
  split; [reflexivity|].
  intros (_ & _ & _ & H). vm_compute in H. discriminate H.
Qed.

(** The theorems above, on the sample streams. *)

Lemma handshake_failure_short_circuits_witness :
  let hs := [passHandler "a"; failHandler errDenied; passHandler "c"] in
  let T := trace (snd (sampleRun hs echoOK "/echo.EchoService/Echo")) in
  handlersCalled T = [passHandler "a"; failHandler errDenied]
  /\ filter isWriteStatus T =
       [WriteStatus (sampleStream "/echo.EchoService/Echo")
          (status.New codes.PermissionDenied "access denied")]
  /\ count isCallEndpoint T = 0%nat
  /\ count isCallDoStart T = 0%nat
  /\ count isFinishTracer T = 0%nat
  /\ count isCallDoFinish T = 0%nat.
Proof.
  intros hs T.
  apply (handshake_failure_short_circuits quoteASCII sampleStack sampleErrCode
           (sampleHandler hs echoOK) sampleTransport (Some sampleConn)
           (sampleStream "/echo.EchoService/Echo")
           sampleRPCInfo [("remote", "10.0.0.1:8888")] eq_refl
           [passHandler "a"] [passHandler "c"] (failHandler errDenied)
           [("a", "seen"); ("remote", "10.0.0.1:8888")]
           [("a", "seen"); ("remote", "10.0.0.1:8888")] errDenied);
    reflexivity.
Defined.

Lemma malformed_method_name_witness :
  let T := trace (snd (sampleRun [] echoOK "BadMethod")) in
  filter isWriteStatus T =
    [WriteStatus (sampleStream "BadMethod")
       (status.New codes.ResourceExhausted
          ("malformed method name: " ++ quoteASCII "BadMethod"))]
  /\ count isCallEndpoint T = 0%nat
  /\ filter isSetter T = [].
Proof.
  apply (malformed_method_name quoteASCII sampleStack sampleErrCode
           (sampleHandler [] echoOK) sampleTransport (Some sampleConn)
           (sampleStream "BadMethod")
           sampleRPCInfo [("remote", "10.0.0.1:8888")] eq_refl
           [("remote", "10.0.0.1:8888")]);
    reflexivity.
Defined.

Lemma malformed_service_name_witness :
  let T := trace (snd (sampleRun [] echoOK "/noservice/Method")) in
  let ctx2 := [("trace", "started"); ("remote", "10.0.0.1:8888")] in
  filter isWriteStatus T =
    [WriteStatus (sampleStream "/noservice/Method")
       (status.New codes.ResourceExhausted
          ("malformed package and service name: " ++
           quoteASCII "/noservice/Method"))]
  /\ count isCallEndpoint T = 0%nat
  /\ filter isFinishTracer T = [Enter_finishTracer ctx2 None None]
  /\ count isCallDoFinish T = 1%nat.
Proof.
  intros T ctx2.
  destruct (malformed_service_name quoteASCII sampleStack sampleErrCode
              (sampleHandler [] echoOK) sampleTransport (Some sampleConn)
              (sampleStream "/noservice/Method")
              sampleRPCInfo [("remote", "10.0.0.1:8888")] eq_refl
              [("remote", "10.0.0.1:8888")] eq_refl
              9 "noservice" eq_refl ltac:(lia) eq_refl eq_refl)
    as (H1 & H2 & H3 & _ & H5).
  exact (conj H1 (conj H2 (conj H3 H5))).
Defined.

(** C6, as stated, fails: on a call state whose statistics have no mutable
    view the malformed service name is reported, the endpoint is not
    called -- and the finish hooks of the tracer are not called once, but
    never. *)
Lemma malformed_service_name_hook_counterexample :
  let T := trace (snd (readOnlyRun echoOK "/noservice/Method")) in
  LastIndex (trimLeadingSlash "/noservice/Method") "/" = 9
  /\ occurs "." "noservice" = false
  /\ filter isWriteStatus T =
       [WriteStatus (sampleStream "/noservice/Method")
          (status.New codes.ResourceExhausted
             ("malformed package and service name: " ++
              quoteASCII "/noservice/Method"))]
  /\ count isCallEndpoint T = 0%nat
  /\ ~ count isCallDoFinish T = 1%nat.
Proof.
  repeat split. intros H. vm_compute in H. discriminate H.
Qed.

Lemma malformed_service_name_sets_method_witness :
  exists m,
    slice "noservice/Method" 10 16 = Some m
    /\ Invocation_ (ri (snd (sampleRun [] echoOK "/noservice/Method"))) =
         {| PackageName := ""; ServiceName := ""; MethodName := m |}
    /\ m = "Method".
Proof.
  destruct (malformed_service_name_sets_method quoteASCII sampleStack
              sampleErrCode
              (sampleHandler [] echoOK) sampleTransport (Some sampleConn)
              (sampleStream "/noservice/Method")
              sampleRPCInfo [("remote", "10.0.0.1:8888")] eq_refl
              [("remote", "10.0.0.1:8888")] eq_refl
              9 "noservice" eq_refl ltac:(lia) eq_refl eq_refl)
    as (m & Hm & Hinv & _).
  exists m. refine (conj Hm (conj Hinv _)).
  vm_compute in Hm. now injection Hm.
Defined.

Lemma endpoint_panic_contained_witness :
  let R := sampleRun [] echoPanics "/echo.EchoService/Echo" in
  let ctx2 := [("trace", "started"); ("remote", "10.0.0.1:8888")] in
  fst R = Next tt
  /\ filter isFinishTracer (trace (snd R)) =
       [Enter_finishTracer ctx2 None (Some (PanicAny "boom"))]
  /\ count isWriteStatus (trace (snd R)) = 0%nat
  /\ filter isErrorf (trace (snd R)) =
       [panicLog sampleStack (Some sampleConn) (PanicAny "boom")].
Proof.
  intros R ctx2.
  destruct (endpoint_panic_contained quoteASCII sampleStack sampleErrCode
              (sampleHandler [] echoPanics) sampleTransport (Some sampleConn)
              (sampleStream "/echo.EchoService/Echo")
              sampleRPCInfo [("remote", "10.0.0.1:8888")] eq_refl
              [("remote", "10.0.0.1:8888")] eq_refl
              16 "echo.EchoService" eq_refl ltac:(lia) eq_refl
              4 eq_refl ltac:(lia)
              echoPanics (Some (PanicAny "boom")) eq_refl eq_refl)
    as (H1 & H2 & H3 & _ & (H5 & _) & _).
  exact (conj H1 (conj H2 (conj H3 H5))).
Defined.

(** C1, as stated, fails: an endpoint that panics with nil is recovered,
    no status is written and [finishTracer] is entered once -- but
    [recover] returns nil, so that nothing is logged and [finishTracer]
    gets no panic value. *)
Lemma endpoint_panic_nil_counterexample :
  let R := sampleRun [] echoPanicsNil "/echo.EchoService/Echo" in
  let T := trace (snd R) in
  let ctx2 := [("trace", "started"); ("remote", "10.0.0.1:8888")] in
  echoPanicsNil ctx2 (sampleStream "/echo.EchoService/Echo") = Panics None
  /\ filter isCallEndpoint T =
       [CallEndpoint ctx2 (sampleStream "/echo.EchoService/Echo")]
  /\ count isWriteStatus T = 0%nat
  /\ filter isFinishTracer T = [Enter_finishTracer ctx2 None None]
  /\ ~ (exists format args, In (Errorf format args) T).
Proof.
  repeat split. intros (format & args & H). vm_compute in H.
  repeat (destruct H as [H|H]; [discriminate H|]). exact H.
Qed.

Lemma endpoint_return_one_status_witness :
  let T := trace (snd (sampleRun [] echoFails "/echo.EchoService/Echo")) in
  let ctx2 := [("trace", "started"); ("remote", "10.0.0.1:8888")] in
  filter isWriteStatus T =
    [WriteStatus (sampleStream "/echo.EchoService/Echo")
       (status.New codes.Internal "no such user")]
  /\ filter isFinishTracer T = [Enter_finishTracer ctx2 None None]
  /\ count isCallDoFinish T = 1%nat.
Proof.
  intros T ctx2.
  destruct (endpoint_return_one_status quoteASCII sampleStack sampleErrCode
              (sampleHandler [] echoFails) sampleTransport (Some sampleConn)
              (sampleStream "/echo.EchoService/Echo")
              sampleRPCInfo [("remote", "10.0.0.1:8888")] eq_refl
              [("remote", "10.0.0.1:8888")] eq_refl
              16 "echo.EchoService" eq_refl ltac:(lia) eq_refl
              4 eq_refl ltac:(lia)
              echoFails (Some errBiz) eq_refl eq_refl)
    as (H1 & _ & H3 & _ & _ & H6).
  exact (conj H1 (conj H3 H6)).
Defined.

(** C3, as stated, fails: on a call state whose statistics have no mutable
    view the endpoint returns, the one status is written -- and the finish
    hooks of the tracer are not called once after it, but never. *)
Lemma endpoint_return_hook_counterexample :
  let T := trace (snd (readOnlyRun echoOK "/echo.EchoService/Echo")) in
  let ctx2 := [("trace", "started"); ("remote", "10.0.0.1:8888")] in
  echoOK ctx2 (sampleStream "/echo.EchoService/Echo") = Returns None
  /\ filter isCallEndpoint T =
       [CallEndpoint ctx2 (sampleStream "/echo.EchoService/Echo")]
  /\ filter isWriteStatus T =
       [WriteStatus (sampleStream "/echo.EchoService/Echo")
          (status.New codes.OK "")]
  /\ ~ count isCallDoFinish T = 1%nat.
Proof.
  repeat split. intros H. vm_compute in H. discriminate H.
Qed.

Lemma method_name_resolution_witness :
  Invocation_ (ri (snd (sampleRun [] echoOK "/echo.EchoService/Echo"))) =
    {| PackageName := "echo"; ServiceName := "EchoService"; MethodName := "Echo" |}
  /\ Invocation_ (ri (snd (sampleRun [] echoOK "echo.EchoService/Echo"))) =
    {| PackageName := "echo"; ServiceName := "EchoService"; MethodName := "Echo" |}.
Proof.
  split.
  - apply (method_name_resolution quoteASCII sampleStack sampleErrCode
             (sampleHandler [] echoOK) sampleTransport (Some sampleConn)
             (sampleStream "/echo.EchoService/Echo")
             sampleRPCInfo [("remote", "10.0.0.1:8888")] eq_refl
             [("remote", "10.0.0.1:8888")] eq_refl
             "echo" "EchoService" "Echo" eq_refl eq_refl eq_refl).
    right. reflexivity.
  - apply (method_name_resolution quoteASCII sampleStack sampleErrCode
             (sampleHandler [] echoOK) sampleTransport (Some sampleConn)
             (sampleStream "echo.EchoService/Echo")
             sampleRPCInfo [("remote", "10.0.0.1:8888")] eq_refl
             [("remote", "10.0.0.1:8888")] eq_refl
             "echo" "EchoService" "Echo" eq_refl eq_refl eq_refl).
    left. reflexivity.
Defined.

(** The method string "./" resolves to three empty names. *)
Lemma segments_recorded_unvalidated_witness :
  exists p sv m,
    (p = "" /\ sv = "" /\ m = "")
    /\ Invocation_ (ri (snd (sampleRun [] echoOK "./"))) =
         {| PackageName := p; ServiceName := sv; MethodName := m |}
    /\ filter isSetter (trace (snd (sampleRun [] echoOK "./"))) =
         [SetMethodName m; SetPackageName p; SetServiceName sv]
    /\ filter isWriteStatus (trace (snd (sampleRun [] echoOK "./"))) =
         [WriteStatus (sampleStream "./") (status.New codes.OK "")].
Proof.
  destruct (segments_recorded_unvalidated quoteASCII sampleStack sampleErrCode
              (sampleHandler [] echoOK) sampleTransport (Some sampleConn)
              (sampleStream "./")
              sampleRPCInfo [("remote", "10.0.0.1:8888")] eq_refl
              [("remote", "10.0.0.1:8888")] eq_refl
              1 "." eq_refl ltac:(lia) eq_refl
              0 eq_refl ltac:(lia))
    as (p & sv & m & Hp & Hsv & Hm & Hinv & Hset & _).
  exists p, sv, m. vm_compute in Hp, Hsv, Hm.
  injection Hp as <-. injection Hsv as <-. injection Hm as <-.
  exact (conj (conj eq_refl (conj eq_refl eq_refl))
           (conj Hinv (conj Hset eq_refl))).
Defined.

(** * Further properties of the handler *)

(** ** Strings: what [strings.LastIndex] of a byte splits *)

(** A string is split at the last occurrence of a byte into what is before
    it and what is after it, where the byte does not occur. *)
Lemma lastIndexFrom_split (c : ascii) (s : string) :
  occurs c s = true ->
  forall i found,
    exists a b,
      s = a ++ String c b /\ occurs c b = false /\
      lastIndexFrom i s (String c EmptyString) found = i + len a.
Proof.
  induction s as [|x s IH]; intros Hocc i found.
  - discriminate.
  - destruct (occurs c s) eqn:Hs.
    + rewrite lastIndexFrom_step.
      destruct (IH eq_refl (i + 1)
                  (if prefix (String c EmptyString) (String x s) then i else found))
        as (a & b & -> & Hb & Hr).
      exists (String x a), b. rewrite Hr, len_String.
      repeat split; [assumption|lia].
    + cbn [occurs] in Hocc. rewrite Hs, orb_false_r in Hocc.
      apply Ascii.eqb_eq in Hocc. subst x.
      exists EmptyString, s. split; [reflexivity|]. split; [assumption|].
      change (String c s) with (EmptyString ++ String c s).
      rewrite (lastIndexFrom_last c EmptyString s Hs). reflexivity.
Qed.

Lemma LastIndex_split (c : ascii) (s : string) :
  LastIndex s (String c EmptyString) <> -1 ->
  exists a b,
    s = a ++ String c b /\ occurs c b = false /\
    LastIndex s (String c EmptyString) = len a.
Proof.
  intros H. apply LastIndex_found_iff in H.
  destruct (lastIndexFrom_split c s H 0 (-1)) as (a & b & Hs & Hb & Hr).
  exists a, b. unfold LastIndex. now rewrite Hr.
Qed.

(** A method string that resolves is its three names put together again,
    and the names are cut at the last separator and the last dot. *)
Lemma Resolves_join (sm p sv m : string) :
  Resolves sm p sv m ->
  sm = p ++ "." ++ sv ++ "/" ++ m
  /\ occurs "/" m = false /\ occurs "." sv = false.
Proof.
  intros (q & Hpos & Hq & Hidx & Hp & Hsv & Hm).
  destruct (LastIndex_split "/" sm Hpos) as (a & b & -> & Hb & Hpa).
  rewrite Hpa in *. clear Hpa Hpos.
  rewrite slice_before in Hq. injection Hq as <-.
  rewrite slice_after in Hm. injection Hm as <-.
  destruct (LastIndex_split "." a Hidx) as (a' & b' & -> & Hb' & Hia).
  rewrite Hia in *. clear Hia Hidx.
  rewrite append_String_assoc in Hp, Hsv |- *.
  rewrite slice_before in Hp. injection Hp as <-.
  rewrite len_append, len_String in Hsv.
  replace (len a' + (len b' + 1)) with (len a' + 1 + len b') in Hsv by lia.
  rewrite slice_between in Hsv. injection Hsv as <-.
  repeat split; assumption.
Qed.

(** ** Every path of a task *)

Lemma finishTracer_post (t : svrTransHandler) (ctx : Context)
    (err : option error) (pe : option PanicValue) (w : World) :
  exists post,
    snd (finishTracer t ctx err pe w) =
      {| ri := {| Invocation_ := Invocation_ (ri w);
                  Stats := match AsMutableRPCStats (Stats (ri w)) with
                           | Some _ => MutableStats {| panicErr := None |}
                           | None => Stats (ri w)
                           end |};
         trace := trace w ++ Enter_finishTracer ctx err pe :: post |}
    /\ forallb isFinishCall post = true
    /\ (forall c r e, In (CallDoFinish c r e) post -> e = err)
    /\ (AsMutableRPCStats (Stats (ri w)) <> None ->
        exists post',
          post = (post' ++ [CallDoFinish ctx
                              match pe with
                              | Some p => withStats (ri w) {| panicErr := Some p |}
                              | None => ri w
                              end err;
                            StatsReset])%list
          /\ filter isCallDoFinish post' = [] /\ filter isStatsReset post' = [])
    /\ (AsMutableRPCStats (Stats (ri w)) = None -> post = []).
Proof.
  destruct (AsMutableRPCStats (Stats (ri w))) as [st|] eqn:E.
  - destruct (finishTracer_mutable t ctx err w st E) as [H0 H1].
    destruct pe as [p|].
    + rewrite (H1 p). eexists. split; [reflexivity|].
      split; [reflexivity|]. split; [|split; [|discriminate]].
      * intros c r e [H|[H|[H|[]]]]; try discriminate H. now injection H.
      * intros _. now exists [SetPanicked p].
    + rewrite H0. eexists. split; [reflexivity|].
      split; [reflexivity|]. split; [|split; [|discriminate]].
      * intros c r e [H|[H|[]]]; try discriminate H. now injection H.
      * intros _. now exists [].
  - rewrite (finishTracer_readonly t ctx err pe w E). exists [].
    split; [|split; [reflexivity|split; [intros c r e []|split]]].
    + unfold after. cbn [snd ri trace]. destruct w as [[i st] tr]. reflexivity.
    + intros H. now contradiction H.
    + reflexivity.
Qed.

Section Paths.

Variable strconv_Quote : string -> string.
Variable debug_Stack : string.
Variable errCode : error -> codes.Code.

Local Abbreviation OnRead_stream := (OnRead_stream strconv_Quote debug_Stack errCode).
Local Abbreviation convertFromKitexToGrpc := (convertFromKitexToGrpc errCode).

Variable t : svrTransHandler.
Variable tr : ServerTransport.
Variable conn : option Conn.
Variable s : Stream.
Variable ri0 : RPCInfo.
Variable ctx0 : Context.
Hypothesis Hinit :
  InitRPCInfoFunc (opt t) (Stream_Context s) (RemoteAddr tr) = (ri0, ctx0).

Local Abbreviation hs := (StreamingMetaHandlers (opt t)).
Local Abbreviation sm := (trimLeadingSlash (Method s)).
Local Abbreviation nilCall :=
  (RuntimeError "invalid memory address or nil pointer dereference").

(** A task takes one of eight paths: the handshake fails; or it passes,
    the tracer starts, and the method name is malformed, or the service
    name is, or the names resolve and the endpoint is not set, returns
    without or with an error, or panics with a value or with nil.  On the
    seven paths of a handshake that has passed the task ends in
    [finishTracer], called on the call state with the invocation record
    [inv] after the calls [mid]. *)
Lemma task_paths :
  (exists n c e,
      runChain hs ctx0 = Failed n c e /\
      OnRead_stream t tr conn s =
        (Next tt,
         {| ri := ri0;
            trace := SetTransportProtocol GRPC :: chainCalls hs ctx0 ++
                     [WriteStatus s (convertFromKitexToGrpc e)] |}))
  \/
  (exists ctx1 inv mid pe,
      runChain hs ctx0 = Passed ctx1 /\
      OnRead_stream t tr conn s =
        (Next tt,
         snd (finishTracer t (DoStart (TracerCtl (opt t)) ctx1 ri0) None pe
                {| ri := withInvocation ri0 inv;
                   trace := openingCalls hs ctx0 ctx1 ++ mid |})) /\
      ((LastIndex sm "/" = -1 /\ inv = Invocation_ ri0 /\ pe = None /\
        mid = [WriteStatus s
                 (status.New codes.ResourceExhausted
                    ("malformed method name: " ++ strconv_Quote (Method s)))])
       \/
       (exists m q,
           LastIndex sm "/" <> -1 /\
           slice sm (LastIndex sm "/" + 1) (len sm) = Some m /\
           slice sm 0 (LastIndex sm "/") = Some q /\
           LastIndex q "." = -1 /\
           inv = {| PackageName := PackageName (Invocation_ ri0);
                    ServiceName := ServiceName (Invocation_ ri0);
                    MethodName := m |} /\
           pe = None /\
           mid = [SetMethodName m;
                  WriteStatus s
                    (status.New codes.ResourceExhausted
                       ("malformed package and service name: " ++
                        strconv_Quote (Method s)))])
       \/
       (exists p sv m,
           Resolves sm p sv m /\
           inv = {| PackageName := p; ServiceName := sv; MethodName := m |} /\
           let ctx2 := DoStart (TracerCtl (opt t)) ctx1 ri0 in
           let set := [SetMethodName m; SetPackageName p; SetServiceName sv] in
           ((inkHdlFunc t = None /\ pe = Some nilCall /\
             mid = (set ++ [panicLog debug_Stack conn nilCall])%list)
            \/
            (exists f,
                inkHdlFunc t = Some f /\
                ((f ctx2 s = Returns None /\ pe = None /\
                  mid = (set ++ [CallEndpoint ctx2 s;
                                 WriteStatus s (status.New codes.OK "")])%list)
                 \/
                 (exists e,
                     f ctx2 s = Returns (Some e) /\ pe = None /\
                     mid = (set ++ [CallEndpoint ctx2 s;
                                    WriteStatus s (convertFromKitexToGrpc e)])%list)
                 \/
                 (exists pv,
                     f ctx2 s = Panics (Some pv) /\ pe = Some pv /\
                     mid = (set ++ [CallEndpoint ctx2 s;
                                    panicLog debug_Stack conn pv])%list)
                 \/
                 (f ctx2 s = Panics None /\ pe = None /\
                  mid = (set ++ [CallEndpoint ctx2 s])%list))))))).
Proof.
  destruct (runChain hs ctx0) as [ctx1|n c e] eqn:Hchain.
  2:{ left. exists n, c, e. split; [reflexivity|].
      exact (task_handshake_failed strconv_Quote debug_Stack errCode
               t tr conn s ri0 ctx0 Hinit n c e Hchain). }
  right. exists ctx1.
  destruct (Z.eq_dec (LastIndex sm "/") (-1)) as [Hpos|Hpos].
  { eexists (Invocation_ ri0), _, None. split; [reflexivity|]. split.
    - rewrite (task_no_separator strconv_Quote debug_Stack errCode
                 t tr conn s ri0 ctx0 Hinit ctx1 Hchain Hpos).
      unfold withInvocation. destruct ri0. reflexivity.
    - left. repeat split; assumption. }
  pose proof (pos_range s _ eq_refl Hpos) as Hr.
  pose proof (slice_in_range sm (LastIndex sm "/" + 1) (len sm)) as Hm.
  pose proof (slice_in_range sm 0 (LastIndex sm "/")) as Hq.
  specialize (Hm ltac:(lia) ltac:(lia) ltac:(lia)).
  specialize (Hq ltac:(lia) ltac:(lia) ltac:(lia)).
  set (m := substring _ _ sm) in Hm. set (q := substring _ _ sm) in Hq.
  destruct (Z.eq_dec (LastIndex q ".") (-1)) as [Hidx|Hidx].
  { eexists _, _, None. split; [reflexivity|]. split.
    - exact (task_no_dot strconv_Quote debug_Stack errCode
               t tr conn s ri0 ctx0 Hinit ctx1 Hchain _ eq_refl Hpos m q Hm Hq Hidx).
    - right. left. exists m, q. now repeat split. }
  pose proof (idx_range s _ eq_refl Hpos m q Hm Hq _ eq_refl Hidx) as Hi.
  pose proof (slice_in_range sm 0 (LastIndex q ".")) as Hp.
  pose proof (slice_in_range sm (LastIndex q "." + 1) (LastIndex sm "/")) as Hsv.
  specialize (Hp ltac:(lia) ltac:(lia) ltac:(lia)).
  specialize (Hsv ltac:(lia) ltac:(lia) ltac:(lia)).
  set (p := substring _ _ sm) in Hp. set (sv := substring _ _ sm) in Hsv.
  assert (Hres : Resolves sm p sv m) by (exists q; now repeat split).
  exists {| PackageName := p; ServiceName := sv; MethodName := m |}.
  destruct (inkHdlFunc t) as [f|] eqn:Hf.
  - destruct (f (DoStart (TracerCtl (opt t)) ctx1 ri0) s) as [[e|]|[pv|]] eqn:Hfr.
    + eexists _, None. split; [reflexivity|]. split.
      * rewrite (task_endpoint_error strconv_Quote debug_Stack errCode
                 t tr conn s ri0 ctx0 Hinit ctx1 Hchain _ eq_refl Hpos m q Hm Hq
                 _ eq_refl Hidx p sv Hp Hsv f Hf e Hfr), <- app_assoc.
        reflexivity.
      * right. right. exists p, sv, m. split; [assumption|]. split; [reflexivity|].
        right. exists f. split; [reflexivity|]. right. left. exists e.
        now repeat split.
    + eexists _, None. split; [reflexivity|]. split.
      * rewrite (task_endpoint_ok strconv_Quote debug_Stack errCode
                 t tr conn s ri0 ctx0 Hinit ctx1 Hchain _ eq_refl Hpos m q Hm Hq
                 _ eq_refl Hidx p sv Hp Hsv f Hf Hfr), <- app_assoc.
        reflexivity.
      * right. right. exists p, sv, m. split; [assumption|]. split; [reflexivity|].
        right. exists f. split; [reflexivity|]. left. now repeat split.
    + eexists _, (Some pv). split; [reflexivity|]. split.
      * rewrite (task_endpoint_panic strconv_Quote debug_Stack errCode
                 t tr conn s ri0 ctx0 Hinit ctx1 Hchain _ eq_refl Hpos m q Hm Hq
                 _ eq_refl Hidx p sv Hp Hsv f Hf pv Hfr), <- app_assoc.
        reflexivity.
      * right. right. exists p, sv, m. split; [assumption|]. split; [reflexivity|].
        right. exists f. split; [reflexivity|]. right. right. left. exists pv.
        now repeat split.
    + eexists _, None. split; [reflexivity|]. split.
      * rewrite (task_endpoint_panic_nil strconv_Quote debug_Stack errCode
                 t tr conn s ri0 ctx0 Hinit ctx1 Hchain _ eq_refl Hpos m q Hm Hq
                 _ eq_refl Hidx p sv Hp Hsv f Hf Hfr), <- app_assoc.
        reflexivity.
      * right. right. exists p, sv, m. split; [assumption|]. split; [reflexivity|].
        right. exists f. split; [reflexivity|]. right. right. right.
        now repeat split.
  - eexists _, (Some nilCall). split; [reflexivity|]. split.
    + rewrite (task_endpoint_unset strconv_Quote debug_Stack errCode
               t tr conn s ri0 ctx0 Hinit ctx1 Hchain _ eq_refl Hpos m q Hm Hq
               _ eq_refl Hidx p sv Hp Hsv Hf), <- app_assoc.
      reflexivity.
    + right. right. exists p, sv, m. split; [assumption|]. split; [reflexivity|].
      left. now repeat split.
Qed.

End Paths.

(** ** What holds on every path *)

Lemma filter_finish_calls (p : Event -> bool) (post : list Event) :
  (forall e, isFinishCall e = true -> p e = false) ->
  forallb isFinishCall post = true ->
  filter p post = [].
Proof.
  intros Hp. induction post as [|e post IH]; intros H; [reflexivity|].
  cbn [forallb] in H. apply andb_true_iff in H as [He Hpost].
  cbn [filter]. rewrite (Hp e He). now apply IH.
Qed.

Lemma filter_isCallDoStart_openingCalls (hs : list StreamingMetaHandler)
    (ctx0 ctx1 : Context) :
  filter isCallDoStart (openingCalls hs ctx0 ctx1) = [CallDoStart ctx1].
Proof.
  unfold openingCalls. cbn [filter isCallDoStart].
  now rewrite filter_app, filter_chainCalls.
Qed.

Lemma filter_handsError_nil (post : list Event) :
  forallb isFinishCall post = true ->
  (forall c r e, In (CallDoFinish c r e) post -> e = None) ->
  filter handsError post = [].
Proof.
  induction post as [|ev post IH]; intros Hpost Herr; [reflexivity|].
  cbn [forallb] in Hpost. apply andb_true_iff in Hpost as [Hev Hpost].
  assert (IH' : filter handsError post = [])
    by (apply IH; [assumption|intros c r e Hin; apply (Herr c r e); now right]).
  destruct ev as [| | | | | | | | | | |c r e|];
    try discriminate Hev; cbn [filter handsError]; try exact IH'.
  rewrite (Herr c r e (or_introl eq_refl)). exact IH'.
Qed.

Section Invariants.

Variable strconv_Quote : string -> string.
Variable debug_Stack : string.
Variable errCode : error -> codes.Code.

Local Abbreviation OnRead_stream := (OnRead_stream strconv_Quote debug_Stack errCode).
Local Abbreviation convertFromKitexToGrpc := (convertFromKitexToGrpc errCode).

Variable t : svrTransHandler.
Variable tr : ServerTransport.
Variable conn : option Conn.
Variable s : Stream.

Local Abbreviation init := (InitRPCInfoFunc (opt t) (Stream_Context s) (RemoteAddr tr)).
Local Abbreviation hs := (StreamingMetaHandlers (opt t)).
Local Abbreviation sm := (trimLeadingSlash (Method s)).
Local Abbreviation T := (trace (snd (OnRead_stream t tr conn s))).
Local Abbreviation nilCall :=
  (RuntimeError "invalid memory address or nil pointer dereference").

(** The paths of the task, with the task's result rewritten to the
    path's, and the trace of [finishTracer] laid out. *)
Ltac paths :=
  let ri0 := fresh "ri0" in
  let ctx0 := fresh "ctx0" in
  let Hinit := fresh "Hinit" in
  destruct init as [ri0 ctx0] eqn:Hinit; cbn [fst snd] in *;
  destruct (task_paths strconv_Quote debug_Stack errCode t tr conn s
              ri0 ctx0 Hinit)
    as [(n & c & e & Hchain & HR)
       |(ctx1 & inv & mid & pe & Hchain & HR &
         [(Hpos & Hinv & Hpe & Hmid)
         |[(m & q & Hpos & Hm & Hq & Hidx & Hinv & Hpe & Hmid)
          |(p & sv & m & Hres & Hinv &
            [(Hf & Hpe & Hmid)
            |(f & Hf &
              [(Hfr & Hpe & Hmid)
              |[(e & Hfr & Hpe & Hmid)
               |[(pv & Hfr & Hpe & Hmid)
                |(Hfr & Hpe & Hmid)]]])])]])];
  rewrite HR; clear HR; cbn [fst snd trace ri];
  [|try match goal with
    | |- context [finishTracer ?t' ?c ?e0 ?p0 ?w] =>
        let post := fresh "post" in
        let E := fresh "E" in
        let Hpost := fresh "Hpost" in
        let Herr := fresh "Herr" in
        let Hmut := fresh "Hmut" in
        let Hro := fresh "Hro" in
        destruct (finishTracer_post t' c e0 p0 w)
          as (post & E & Hpost & Herr & Hmut & Hro);
        rewrite E; clear E; cbn [fst snd trace ri Invocation_ Stats withInvocation] in *
    end ..];
  subst; unfold panicLog;
  try match goal with
      | |- context [match conn with Some _ => _ | None => _ end] =>
          destruct conn
      end.

(** Filters and counts over the trace of a path. *)
Ltac no_finish_call :=
  let e := fresh "e" in
  intros e; destruct e; cbn; intros; (reflexivity || discriminate).

Ltac crunch_step :=
  cbn [filter app isWriteStatus isCallEndpoint isCallOnReadStream isCallDoStart
         isFinishTracer isCallDoFinish isStatsReset isErrorf isSetter handsError];
  rewrite ?filter_app;
  rewrite ?filter_isCallDoStart_openingCalls;
  rewrite ?filter_openingCalls, ?filter_chainCalls by reflexivity.

Ltac crunch :=
  unfold count;
  crunch_step; crunch_step; crunch_step;
  repeat match goal with
         | Hpost : forallb isFinishCall ?post = true
           |- context [filter ?p ?post] =>
             rewrite (filter_finish_calls p post ltac:(no_finish_call) Hpost)
         end;
  cbn [List.length app].

(** Once the handshake has passed and the tracer has started, the
    deferred recovery is installed, and no panic leaves the task: the
    slices taken at the separator and at the dot are in range, and a panic
    of the endpoint (with a value or with nil) or of the call of a nil
    endpoint is recovered -- the task returns, having entered
    [finishTracer] exactly once.  (A panic raised earlier, while the
    handshake runs, would not be recovered; the embedding takes the calls
    made there to return.) *)
Theorem bracket_contains_panics (cx : Context) :
  runChain hs (snd init) = Passed cx ->
  fst (OnRead_stream t tr conn s) = Next tt
  /\ count isCallDoStart T = 1%nat
  /\ count isFinishTracer T = 1%nat.
Proof.
  destruct init as [ri0 ctx0] eqn:Hinit; cbn [fst snd] in *.
  intros Hcx.
  destruct (task_paths strconv_Quote debug_Stack errCode t tr conn s
              ri0 ctx0 Hinit)
    as [(n & c & e & Hchain & _)
       |(ctx1 & inv & mid & pe & Hchain & HR & Hmid)]; [congruence|].
  rewrite HR. split; [reflexivity|]. cbn [snd].
  destruct (finishTracer_post t (DoStart (TracerCtl (opt t)) ctx1 ri0) None pe
              {| ri := withInvocation ri0 inv;
                 trace := openingCalls hs ctx0 ctx1 ++ mid |})
    as (post & E & Hpost & _).
  rewrite E. cbn [trace].
  assert (Hmid' : filter isCallDoStart mid = [] /\ filter isFinishTracer mid = []).
  { destruct Hmid
      as [(_ & _ & _ & ->)
         |[(? & ? & _ & _ & _ & _ & _ & _ & ->)
          |(? & ? & ? & _ & _ &
            [(_ & _ & ->)
            |(? & _ &
              [(_ & _ & ->)
              |[(? & _ & _ & ->)
               |[(? & _ & _ & ->)
                |(_ & _ & ->)]]])])]];
      unfold panicLog; try destruct conn; split; reflexivity. }
  destruct Hmid' as [Hs Hf].
  crunch. rewrite Hs, Hf. split; reflexivity.
Qed.

(** At most one status is written for a stream, on every path, and it is
    written to that stream. *)
Theorem at_most_one_status :
  filter isWriteStatus T = []
  \/ exists st, filter isWriteStatus T = [WriteStatus s st].
Proof.
  paths; crunch; solve [now left | right; eexists; reflexivity].
Qed.

(** The tracer bracket is balanced: [finishTracer] is entered as often as
    the tracer was started, once or never; and once it is entered, the
    task makes only the calls of [finishTracer] -- nothing is written,
    logged or set after it. *)
Theorem tracer_bracket_balanced :
  count isCallDoStart T = count isFinishTracer T
  /\ (count isFinishTracer T = 0%nat
      \/ exists before ctx pe post,
           T = (before ++ Enter_finishTracer ctx None pe :: post)%list
           /\ count isCallDoStart before = 1%nat
           /\ count isFinishTracer before = 0%nat
           /\ forallb isFinishCall post = true).
Proof.
  paths;
    (split; [crunch; reflexivity|]);
    [left; crunch; reflexivity
    |right;
     match goal with
     | Hpost : forallb isFinishCall ?post = true |- _ =>
         eexists _, _, _, post; (split; [reflexivity|])
     end;
     crunch; now repeat split ..].
Qed.

(** The tracer is never handed an error: [finishTracer] is always entered
    with a nil error, and so are the finish hooks, also when the endpoint
    has returned an error (which the task keeps in a variable of its own,
    not in the one that the deferred function reads). *)
Theorem tracer_never_sees_error :
  count handsError T = 0%nat.
Proof.
  paths; crunch;
    try (rewrite (filter_handsError_nil post Hpost Herr); reflexivity);
    reflexivity.
Qed.

(** The endpoint is called at most once, and it is called exactly when
    the handshake passes, the method string resolves and the handler has
    an endpoint. *)
Theorem endpoint_called_iff :
  (count isCallEndpoint T <= 1)%nat
  /\ (count isCallEndpoint T = 1%nat <->
      exists ctx1 p sv m f,
        runChain hs (snd init) = Passed ctx1
        /\ Resolves sm p sv m
        /\ inkHdlFunc t = Some f).
Proof.
  paths; crunch; (split; [lia|]); split; intros H;
    try discriminate H; try reflexivity;
    try solve [now exists ctx1, p, sv, m, f];
    destruct H as (? & ? & ? & ? & ? & Hc & (q' & Hne & Hq' & Hne2 & _) & Hf');
    first [ congruence
          | contradiction
          | rewrite Hq in Hq'; injection Hq' as <-; contradiction ].
Qed.

(** The endpoint, when it is called, is given the stream of the task and
    the context that the tracer start returned for the context that the
    last metadata handler returned; the tracer was started on a call
    state [r] on which no name had been set yet. *)
Theorem endpoint_context :
  filter isCallEndpoint T = []
  \/ exists ctx1 r,
       runChain hs (snd init) = Passed ctx1
       /\ Invocation_ r = Invocation_ (fst init)
       /\ filter isCallEndpoint T =
            [CallEndpoint (DoStart (TracerCtl (opt t)) ctx1 r) s].
Proof.
  paths; crunch; solve [now left | right; exists ctx1; eexists; now repeat split].
Qed.

(** The names of the invocation record are set in one order and in one of
    three ways: none; the method name alone; or method, package and
    service name together.  The record the task leaves is the initial one
    with the names that were set. *)
Theorem setters_all_or_method_only :
  let inv0 := Invocation_ (fst init) in
  let inv := Invocation_ (ri (snd (OnRead_stream t tr conn s))) in
  (filter isSetter T = [] /\ inv = inv0)
  \/ (exists m,
        filter isSetter T = [SetMethodName m]
        /\ inv = {| PackageName := PackageName inv0;
                    ServiceName := ServiceName inv0;
                    MethodName := m |})
  \/ (exists p sv m,
        filter isSetter T = [SetMethodName m; SetPackageName p; SetServiceName sv]
        /\ inv = {| PackageName := p; ServiceName := sv; MethodName := m |}).
Proof.
  intros inv0 inv. subst inv0 inv.
  paths; crunch;
    solve [ left; now split
          | right; left; eexists; now split
          | right; right; eexists _, _, _; now split ].
Qed.

(** The names that a task sets are the method string cut at its last
    separator and at the last dot before it: put together again they are
    the method string without its leading separator, the method name has
    no separator in it and the service name no dot. *)
Theorem names_rejoin_method_string (pkg svc mth : string) :
  filter isSetter T =
    [SetMethodName mth; SetPackageName pkg; SetServiceName svc] ->
  sm = pkg ++ "." ++ svc ++ "/" ++ mth
  /\ occurs "/" mth = false
  /\ occurs "." svc = false.
Proof.
  paths; crunch; intros H; try discriminate H;
    injection H as <- <- <-; now apply Resolves_join.
Qed.

(** A failed handshake leaves the names and the statistics of the call
    state as [InitRPCInfoFunc] made them: no name is set and the
    statistics are not reset.  What the task has done to the call state is
    its first call, the transport protocol set on the config. *)
Theorem failed_handshake_keeps_names_and_stats
    (k : nat) (cx : Context) (ex : error) :
  runChain hs (snd init) = Failed k cx ex ->
  Invocation_ (ri (snd (OnRead_stream t tr conn s))) = Invocation_ (fst init)
  /\ Stats (ri (snd (OnRead_stream t tr conn s))) = Stats (fst init)
  /\ count isSetter T = 0%nat
  /\ count isStatsReset T = 0%nat
  /\ exists rest,
       T = SetTransportProtocol GRPC :: rest
       /\ forall p, ~ In (SetTransportProtocol p) rest.
Proof.
  paths; intros H; try congruence. crunch.
  split; [reflexivity|]. split; [reflexivity|].
  split; [reflexivity|]. split; [reflexivity|].
  eexists. split; [reflexivity|].
  intros p Hin. apply in_app_or in Hin as [Hin|[Hin|[]]]; [|discriminate Hin].
  clear - Hin. revert ctx0 Hin.
  induction (StreamingMetaHandlers (opt t)) as [|h l IH]; intros ctx0 Hin.
  - contradiction.
  - cbn [chainCalls] in Hin. destruct Hin as [Hin|Hin]; [discriminate Hin|].
    destruct (OnReadStream h ctx0) as [c' [e'|]]; [contradiction|].
    now apply (IH c').
Qed.

(** When the handshake has passed and the statistics are mutable, every
    path of the task -- malformed name, return, panic -- ends with the
    finish hooks called once and the statistics reset, as the last call of
    the task; no panic value stays in the call state. *)
Theorem bracket_ends_in_reset (cx : Context) :
  runChain hs (snd init) = Passed cx ->
  AsMutableRPCStats (Stats (fst init)) <> None ->
  Stats (ri (snd (OnRead_stream t tr conn s))) = MutableStats {| panicErr := None |}
  /\ count isCallDoFinish T = 1%nat
  /\ count isStatsReset T = 1%nat
  /\ exists before, T = (before ++ [StatsReset])%list.
Proof.
  paths; intros H Hstats; try congruence;
    destruct (Hmut Hstats) as (post' & -> & Hdf & Hrs);
    (destruct (AsMutableRPCStats (Stats ri0)); [|contradiction]);
    (split; [reflexivity|]);
    crunch; rewrite ?Hdf, ?Hrs; cbn [List.length app];
    (split; [reflexivity|]); (split; [reflexivity|]);
    eexists; rewrite ?app_comm_cons, ?app_assoc;
    repeat rewrite app_comm_cons;
    change [CallDoFinish ?a ?b ?c; StatsReset]
      with ([CallDoFinish a b c] ++ [StatsReset])%list;
    rewrite ?app_assoc; reflexivity.
Qed.

(** When the handshake has passed and the statistics have no mutable
    view, the tracer is started but its finish hooks are never called,
    whatever the path; the statistics are left as they were. *)
Theorem readonly_stats_start_without_finish (cx : Context) :
  runChain hs (snd init) = Passed cx ->
  AsMutableRPCStats (Stats (fst init)) = None ->
  count isCallDoStart T = 1%nat
  /\ count isFinishTracer T = 1%nat
  /\ count isCallDoFinish T = 0%nat
  /\ Stats (ri (snd (OnRead_stream t tr conn s))) = Stats (fst init).
Proof.
  paths; intros H Hstats; try congruence;
    rewrite (Hro Hstats), Hstats; crunch; now repeat split.
Qed.

(** The path of a handler whose [inkHdlFunc] is nil. *)
Lemma endpoint_unset_path (cx : Context) (pkg svc mth : string) :
  inkHdlFunc t = None ->
  runChain hs (snd init) = Passed cx ->
  Resolves sm pkg svc mth ->
  count isWriteStatus T = 0%nat
  /\ count isCallEndpoint T = 0%nat
  /\ filter isErrorf T = [panicLog debug_Stack conn nilCall]
  /\ filter isFinishTracer T =
       [Enter_finishTracer (DoStart (TracerCtl (opt t)) cx (fst init)) None
          (Some nilCall)].
Proof.
  paths; intros Hnil H Hr; try congruence; crunch;
    rewrite Hchain in H; injection H as <-;
    try solve [destruct Hr as (? & Hr & _); contradiction];
    try solve [destruct Hr as (q' & _ & Hq' & Hr & _);
               rewrite Hq in Hq'; injection Hq' as <-; contradiction];
    now repeat split.
Qed.

End Invariants.

(** ** The handler and its endpoint *)

(** A handler as [newSvrTransHandler] makes it has no endpoint, and calls
    none: on a stream whose handshake passes and whose method string
    resolves, the call of the nil function panics and is recovered -- it
    is logged, no status is written, and [finishTracer] is entered once
    with the run-time error. *)
Theorem new_handler_calls_no_endpoint
    (strconv_Quote : string -> string) (debug_Stack : string)
    (errCode : error -> codes.Code) (o : ServerOption)
    (tr : ServerTransport) (conn : option Conn) (s : Stream)
    (ctx1 : Context) (p sv m : string) :
  let t := fst (newSvrTransHandler o) in
  let init := InitRPCInfoFunc o (Stream_Context s) (RemoteAddr tr) in
  let T := trace (snd (OnRead_stream strconv_Quote debug_Stack errCode t tr conn s)) in
  let nilCall := RuntimeError "invalid memory address or nil pointer dereference" in
  runChain (StreamingMetaHandlers o) (snd init) = Passed ctx1 ->
  Resolves (trimLeadingSlash (Method s)) p sv m ->
  snd (newSvrTransHandler o) = None
  /\ count isWriteStatus T = 0%nat
  /\ count isCallEndpoint T = 0%nat
  /\ filter isErrorf T = [panicLog debug_Stack conn nilCall]
  /\ filter isFinishTracer T =
       [Enter_finishTracer (DoStart (TracerCtl o) ctx1 (fst init)) None
          (Some nilCall)].
Proof.
  intros t init T nilCall Hchain Hres. split; [reflexivity|].
  exact (endpoint_unset_path strconv_Quote debug_Stack errCode t tr conn s
           ctx1 p sv m eq_refl Hchain Hres).
Qed.

(** [SetInvokeHandleFunc] changes the endpoint and nothing else, and the
    endpoint set last is the one in force, whatever was set before: on a
    stream whose handshake passes and whose method string resolves the
    task calls it once, and what it does decides the status -- OK when it
    returns no error, the translation of the error it returns, none when
    it panics -- and the panic value that [finishTracer] gets. *)
Theorem SetInvokeHandleFunc_sets_endpoint
    (strconv_Quote : string -> string) (debug_Stack : string)
    (errCode : error -> codes.Code) (t : svrTransHandler) (f g : Endpoint)
    (tr : ServerTransport) (conn : option Conn) (s : Stream)
    (ctx1 : Context) (p sv m : string) :
  let t' := SetInvokeHandleFunc (SetInvokeHandleFunc t g) f in
  let init := InitRPCInfoFunc (opt t) (Stream_Context s) (RemoteAddr tr) in
  let ctx2 := DoStart (TracerCtl (opt t)) ctx1 (fst init) in
  let T := trace (snd (OnRead_stream strconv_Quote debug_Stack errCode t' tr conn s)) in
  runChain (StreamingMetaHandlers (opt t)) (snd init) = Passed ctx1 ->
  Resolves (trimLeadingSlash (Method s)) p sv m ->
  opt t' = opt t
  /\ filter isCallEndpoint T = [CallEndpoint ctx2 s]
  /\ filter isWriteStatus T =
       match f ctx2 s with
       | Returns None => [WriteStatus s (status.New codes.OK "")]
       | Returns (Some e) => [WriteStatus s (convertFromKitexToGrpc errCode e)]
       | Panics _ => []
       end
  /\ filter isFinishTracer T =
       [Enter_finishTracer ctx2 None
          match f ctx2 s with
          | Returns _ => None
          | Panics v => v
          end].
Proof.
  intros t' init ctx2 T Hchain Hres. split; [reflexivity|].
  subst T ctx2 init.
  destruct (InitRPCInfoFunc (opt t) (Stream_Context s) (RemoteAddr tr))
    as [ri0 ctx0] eqn:Hinit.
  cbn [fst snd] in *.
  destruct (task_paths strconv_Quote debug_Stack errCode t' tr conn s
              ri0 ctx0 Hinit)
    as [(n & c & e & Hc & _)
       |(ctx1' & inv & mid & pe & Hc & HR & Hmid)];
    cbn [opt t' SetInvokeHandleFunc] in Hc; [congruence|].
  rewrite Hchain in Hc. injection Hc as <-.
  rewrite HR. cbn [snd].
  destruct (finishTracer_post t' (DoStart (TracerCtl (opt t')) ctx1 ri0) None pe
              {| ri := withInvocation ri0 inv;
                 trace := openingCalls (StreamingMetaHandlers (opt t')) ctx0 ctx1
                          ++ mid |})
    as (post & E & Hpost & _).
  rewrite E. cbn [trace]. clear E HR.
  cbn [opt t' SetInvokeHandleFunc inkHdlFunc] in *.
  destruct Hmid
    as [(Hpos & _)
       |[(? & q & Hpos & _ & Hq & Hidx & _)
        |(? & ? & ? & _ & _ &
          [(Hf & _)
          |(f' & Hf &
            [(Hfr & -> & ->)
            |[(e & Hfr & -> & ->)
             |[(pv & Hfr & -> & ->)
              |(Hfr & -> & ->)]]])])]].
  - destruct Hres as (? & Hne & _). contradiction.
  - destruct Hres as (q' & _ & Hq' & Hne & _).
    rewrite Hq in Hq'. injection Hq' as <-. contradiction.
  - discriminate Hf.
  - injection Hf as <-. rewrite Hfr.
    rewrite !filter_app, !filter_openingCalls by reflexivity.
    cbn [filter app isCallEndpoint isWriteStatus isFinishTracer isSetter].
    rewrite !(filter_finish_calls _ post) by (assumption || now intros []).
    now repeat split.
  - injection Hf as <-. rewrite Hfr.
    rewrite !filter_app, !filter_openingCalls by reflexivity.
    cbn [filter app isCallEndpoint isWriteStatus isFinishTracer isSetter].
    rewrite !(filter_finish_calls _ post) by (assumption || now intros []).
    now repeat split.
  - injection Hf as <-. rewrite Hfr.
    rewrite !filter_app, !filter_openingCalls by reflexivity.
    unfold panicLog. destruct conn;
      cbn [filter app isCallEndpoint isWriteStatus isFinishTracer isSetter];
      rewrite !(filter_finish_calls _ post) by (assumption || now intros []);
      now repeat split.
  - injection Hf as <-. rewrite Hfr.
    rewrite !filter_app, !filter_openingCalls by reflexivity.
    cbn [filter app isCallEndpoint isWriteStatus isFinishTracer isSetter].
    rewrite !(filter_finish_calls _ post) by (assumption || now intros []).
    now repeat split.
Qed.

Lemma SetInvokeHandleFunc_sets_endpoint_witness :
  let t' := SetInvokeHandleFunc
              (SetInvokeHandleFunc (fst (newSvrTransHandler (sampleOption [])))
                 echoOK) echoFails in
  let T := trace (snd (OnRead_stream quoteASCII sampleStack sampleErrCode t'
                         sampleTransport (Some sampleConn)
                         (sampleStream "/echo.EchoService/Echo"))) in
  filter isWriteStatus T =
    [WriteStatus (sampleStream "/echo.EchoService/Echo")
       (status.New codes.Internal "no such user")].
Proof.
  intros t' T.
  assert (Hres : Resolves (trimLeadingSlash "/echo.EchoService/Echo")
                   "echo" "EchoService" "Echo").
  { exists "echo.EchoService". vm_compute. repeat split; discriminate. }
  destruct (SetInvokeHandleFunc_sets_endpoint quoteASCII sampleStack
              sampleErrCode (fst (newSvrTransHandler (sampleOption [])))
              echoFails echoOK sampleTransport (Some sampleConn)
              (sampleStream "/echo.EchoService/Echo")
              [("remote", "10.0.0.1:8888")] "echo" "EchoService" "Echo"
              eq_refl Hres)
    as (_ & _ & H & _).
  exact H.
Defined.

(** ** Write and Read *)

(** [Write] and [Read] release the buffer exactly once and as their last
    call, on every path, and with a nil error even when encoding, flushing
    or decoding has failed (the argument of the deferred call is read when
    the [defer] statement runs).  [Write] flushes the buffer only when
    encoding has succeeded and returns the error of encoding, or else the
    one of flushing; [Read] returns the error of decoding. *)
Theorem Write_Read_release_with_nil
    (codec : Codec) (Flush : option Conn -> option error)
    (ctx : Context) (conn : option Conn) (msg : Message) :
  let w := Write codec Flush ctx conn msg in
  let r := Read codec ctx conn msg in
  (exists before,
      fst w = (newBuffer conn :: CallEncode ctx msg :: before ++
               [CallRelease None])%list
      /\ (before = [CallFlush] \/ before = []))
  /\ (count_flush (fst w) = 1%nat <-> Encode codec ctx msg = None)
  /\ (forall e, Encode codec ctx msg = Some e -> snd w = Some e)
  /\ (Encode codec ctx msg = None -> snd w = Flush conn)
  /\ fst r = [newBuffer conn; CallDecode ctx msg; CallRelease None]
  /\ snd r = Decode codec ctx msg.
Proof.
  intros w r. subst w r. unfold Write, Read, deferCall, count_flush.
  destruct (Encode codec ctx msg) as [e|]; cbn.
  - split; [exists []; split; [reflexivity|now right]|].
    split; [split; discriminate|].
    split; [intros e' H; now injection H as <-|].
    split; [discriminate|]. now split.
  - split; [exists [CallFlush]; split; [reflexivity|now left]|].
    split; [now split|].
    split; [discriminate|]. now repeat split.
Qed.

(** The properties above that have a premise, on the sample streams. *)

Lemma names_rejoin_method_string_witness :
  "echo.EchoService/Echo" = "echo" ++ "." ++ "EchoService" ++ "/" ++ "Echo"
  /\ occurs "/" "Echo" = false
  /\ occurs "." "EchoService" = false.
Proof.
  exact (names_rejoin_method_string quoteASCII sampleStack sampleErrCode
           (sampleHandler [] echoOK) sampleTransport (Some sampleConn)
           (sampleStream "/echo.EchoService/Echo")
           "echo" "EchoService" "Echo" eq_refl).
Defined.

Lemma failed_handshake_keeps_names_and_stats_witness :
  let R := sampleRun [passHandler "a"; failHandler errDenied] echoOK
             "/echo.EchoService/Echo" in
  Invocation_ (ri (snd R)) = Invocation_ sampleRPCInfo
  /\ Stats (ri (snd R)) = Stats sampleRPCInfo
  /\ count isSetter (trace (snd R)) = 0%nat
  /\ count isStatsReset (trace (snd R)) = 0%nat.
Proof.
  intros R.
  destruct (failed_handshake_keeps_names_and_stats quoteASCII sampleStack
              sampleErrCode
              (sampleHandler [passHandler "a"; failHandler errDenied] echoOK)
              sampleTransport (Some sampleConn)
              (sampleStream "/echo.EchoService/Echo")
              1 [("a", "seen"); ("remote", "10.0.0.1:8888")] errDenied eq_refl)
    as (H1 & H2 & H3 & H4 & _).
  exact (conj H1 (conj H2 (conj H3 H4))).
Defined.

Lemma bracket_contains_panics_witness :
  let R := sampleRun [passHandler "a"] echoPanicsNil "/echo.EchoService/Echo" in
  fst R = Next tt
  /\ count isCallDoStart (trace (snd R)) = 1%nat
  /\ count isFinishTracer (trace (snd R)) = 1%nat.
Proof.
  exact (bracket_contains_panics quoteASCII sampleStack sampleErrCode
           (sampleHandler [passHandler "a"] echoPanicsNil)
           sampleTransport (Some sampleConn)
           (sampleStream "/echo.EchoService/Echo")
           [("a", "seen"); ("remote", "10.0.0.1:8888")] eq_refl).
Defined.

Lemma bracket_ends_in_reset_witness :
  let R := sampleRun [] echoPanics "/echo.EchoService/Echo" in
  Stats (ri (snd R)) = MutableStats {| panicErr := None |}
  /\ count isCallDoFinish (trace (snd R)) = 1%nat
  /\ count isStatsReset (trace (snd R)) = 1%nat
  /\ exists before, trace (snd R) = (before ++ [StatsReset])%list.
Proof.
  apply (bracket_ends_in_reset quoteASCII sampleStack sampleErrCode
           (sampleHandler [] echoPanics) sampleTransport (Some sampleConn)
           (sampleStream "/echo.EchoService/Echo")
           [("remote", "10.0.0.1:8888")] eq_refl).
  discriminate.
Defined.

Lemma readonly_stats_start_without_finish_witness :
  let t := SetInvokeHandleFunc (fst (newSvrTransHandler readOnlyOption)) echoOK in
  let R := OnRead_stream quoteASCII sampleStack sampleErrCode t sampleTransport
             (Some sampleConn) (sampleStream "/echo.EchoService/Echo") in
  count isCallDoStart (trace (snd R)) = 1%nat
  /\ count isFinishTracer (trace (snd R)) = 1%nat
  /\ count isCallDoFinish (trace (snd R)) = 0%nat
  /\ Stats (ri (snd R)) = ReadOnlyStats.
Proof.
  exact (readonly_stats_start_without_finish quoteASCII sampleStack sampleErrCode
           (SetInvokeHandleFunc (fst (newSvrTransHandler readOnlyOption)) echoOK)
           sampleTransport (Some sampleConn)
           (sampleStream "/echo.EchoService/Echo")
           [("remote", "10.0.0.1:8888")] eq_refl eq_refl).
Defined.

Lemma new_handler_calls_no_endpoint_witness :
  let t := fst (newSvrTransHandler (sampleOption [])) in
  let T := trace (snd (OnRead_stream quoteASCII sampleStack sampleErrCode t
                         sampleTransport None
                         (sampleStream "/echo.EchoService/Echo"))) in
  count isWriteStatus T = 0%nat
  /\ count isCallEndpoint T = 0%nat
  /\ filter isErrorf T =
       [panicLog sampleStack None
          (RuntimeError "invalid memory address or nil pointer dereference")].
Proof.
  intros t T.
  assert (Hres : Resolves (trimLeadingSlash "/echo.EchoService/Echo")
                   "echo" "EchoService" "Echo").
  { exists "echo.EchoService". vm_compute. repeat split; discriminate. }
  destruct (new_handler_calls_no_endpoint quoteASCII sampleStack sampleErrCode
              (sampleOption []) sampleTransport None
              (sampleStream "/echo.EchoService/Echo")
              [("remote", "10.0.0.1:8888")] "echo" "EchoService" "Echo"
              eq_refl Hres)
    as (_ & H1 & H2 & H3 & _).
  exact (conj H1 (conj H2 H3)).
Defined.
